(** * Helper.py: logging into a university portal and scraping a balance

    A shallow embedding of [Helper.py].  The script drives a browser through
    Selenium; the embedding replaces the live browser by a document tree that
    answers the element queries the script issues, and replaces exceptions by
    an explicit result type.

    Python strings are modelled by [string], read as sequences of the code
    points 0 to 255; the case mappings and the white space class are those of
    Python for these code points.  Where the title case of such a text leaves
    them, the text becomes a sequence of [wchar]. *)

From Stdlib Require Import ZArith Ascii String List Lia.
From stdpp Require Import base option list gmap strings.

Local Open Scope Z_scope.

Set Warnings "-register-all".

(** ** Exceptions and results *)

Inductive exn : Type :=
  | AssertionError (msg : string)
  | ValueError
  | IsADirectoryError
  | UnicodeDecodeError
  | AttributeError
  | NoSuchElementException
  | UnexpectedTagNameException (msg : string)
  | WebDriverException (msg : string).

Inductive result (A : Type) : Type :=
  | Ok (a : A)
  | Raise (e : exn).

Arguments Ok {A} a.
Arguments Raise {A} e.

Global Instance result_ret : MRet result := λ A a, Ok a.

Global Instance result_bind : MBind result := λ A B k r,
  match r with
  | Ok a => k a
  | Raise e => Raise e
  end.

(** ** Characters outside of the texts *)

(** The title case of a text of code points below 256 may hold two further
    code points, and the lower case of that a third one. *)
Inductive wchar : Type :=
  | Latin (c : ascii)
  | CapitalYDiaeresis
  | CapitalMu
  | SmallMu.

Definition code_point (w : wchar) : N :=
  match w with
  | Latin c => N_of_ascii c
  | CapitalYDiaeresis => 376
  | CapitalMu => 924
  | SmallMu => 956
  end%N.

Definition wchar_of_code_point (n : N) : wchar :=
  if (n =? 376)%N then CapitalYDiaeresis
  else if (n =? 924)%N then CapitalMu
  else if (n =? 956)%N then SmallMu
  else Latin (ascii_of_N n).

Global Instance wchar_eq_dec : EqDecision wchar.
Proof. solve_decision. Defined.

Global Instance wchar_countable : Countable wchar.
Proof.
  apply (inj_countable' code_point wchar_of_code_point).
  intros [c| | |]; try reflexivity.
  unfold wchar_of_code_point, code_point.
  pose proof (N_ascii_bounded c) as Hc.
  destruct (N.eqb_spec (N_of_ascii c) 376); [lia|].
  destruct (N.eqb_spec (N_of_ascii c) 924); [lia|].
  destruct (N.eqb_spec (N_of_ascii c) 956); [lia|].
  by rewrite ascii_N_embedding.
Defined.

(** A text as a sequence of such characters. *)
Fixpoint wide (s : string) : list wchar :=
  match s with
  | EmptyString => []
  | String c s' => Latin c :: wide s'
  end.

(** ** Python string operations *)

Module PyStr.

Fixpoint startswith (sub s : string) : bool :=
  match sub, s with
  | EmptyString, _ => true
  | String _ _, EmptyString => false
  | String a sub', String b s' => bool_decide (a = b) && startswith sub' s'
  end.

(** [sub in s] *)
Fixpoint contains (sub s : string) : bool :=
  startswith sub s ||
  match s with
  | EmptyString => false
  | String _ s' => contains sub s'
  end.

(** Offset of the leftmost occurrence, if there is one. *)
Fixpoint index_of (sub s : string) : option nat :=
  if startswith sub s then Some 0%nat
  else match s with
       | EmptyString => None
       | String _ s' => S <$> index_of sub s'
       end.

(** Offset of the rightmost occurrence, if there is one. *)
Fixpoint rindex_of (sub s : string) : option nat :=
  match s with
  | EmptyString => if startswith sub s then Some 0%nat else None
  | String _ s' =>
      match rindex_of sub s' with
      | Some i => Some (S i)
      | None => if startswith sub s then Some 0%nat else None
      end
  end.

(** [s.find(sub)] and [s.rfind(sub)]: the offset, or -1. *)
Definition find (s sub : string) : Z :=
  match index_of sub s with
  | Some i => Z.of_nat i
  | None => -1
  end.

Definition rfind (s sub : string) : Z :=
  match rindex_of sub s with
  | Some i => Z.of_nat i
  | None => -1
  end.

Fixpoint drop (n : nat) (s : string) : string :=
  match n, s with
  | O, _ => s
  | S _, EmptyString => EmptyString
  | S n', String _ s' => drop n' s'
  end.

Fixpoint take (n : nat) (s : string) : string :=
  match n, s with
  | O, _ => EmptyString
  | S _, EmptyString => EmptyString
  | S n', String c s' => String c (take n' s')
  end.

(** A slice bound as Python adjusts it: a negative bound counts from the
    end, and the outcome is clamped to [0 .. len]. *)
Definition adjust (len i : Z) : Z :=
  if i <? 0 then Z.max (i + len) 0 else Z.min i len.

(** [s[start:stop]] *)
Definition slice (s : string) (start stop : Z) : string :=
  let len := Z.of_nat (String.length s) in
  let a := adjust len start in
  let b := adjust len stop in
  take (Z.to_nat (b - a)) (drop (Z.to_nat a) s).

(** *** Case mappings *)

Fixpoint assoc {B : Type} (n : N) (table : list (N * B)) : option B :=
  match table with
  | [] => None
  | (k, v) :: table' => if (k =? n)%N then Some v else assoc n table'
  end.

(** The code points below 256 that [lower()] changes, each with what it
    becomes. *)
Definition lower_table : list (N * N) :=
  [(65, 97); (66, 98); (67, 99); (68, 100); (69, 101); (70, 102); (71, 103);
   (72, 104); (73, 105); (74, 106); (75, 107); (76, 108); (77, 109);
   (78, 110); (79, 111); (80, 112); (81, 113); (82, 114); (83, 115);
   (84, 116); (85, 117); (86, 118); (87, 119); (88, 120); (89, 121);
   (90, 122); (192, 224); (193, 225); (194, 226); (195, 227); (196, 228);
   (197, 229); (198, 230); (199, 231); (200, 232); (201, 233); (202, 234);
   (203, 235); (204, 236); (205, 237); (206, 238); (207, 239); (208, 240);
   (209, 241); (210, 242); (211, 243); (212, 244); (213, 245); (214, 246);
   (216, 248); (217, 249); (218, 250); (219, 251); (220, 252); (221, 253);
   (222, 254)]%N.

Definition lower_char (c : ascii) : ascii :=
  match assoc (N_of_ascii c) lower_table with
  | Some n => ascii_of_N n
  | None => c
  end.

(** [s.lower()] *)
Fixpoint lower (s : string) : string :=
  match s with
  | EmptyString => EmptyString
  | String c s' => String (lower_char c) (lower s')
  end.

Definition lower_wchar (w : wchar) : wchar :=
  match w with
  | Latin c => Latin (lower_char c)
  | CapitalYDiaeresis => Latin (ascii_of_N 255)
  | CapitalMu => SmallMu
  | SmallMu => SmallMu
  end.

(** [s.lower()] on a text that title case has made. *)
Definition lower_wide (t : list wchar) : list wchar := lower_wchar <$> t.

(** The code points below 256 that title case changes, each with the code
    points that it becomes. *)
Definition title_table : list (N * list N) :=
  [(97, [65]); (98, [66]); (99, [67]); (100, [68]); (101, [69]);
   (102, [70]); (103, [71]); (104, [72]); (105, [73]); (106, [74]);
   (107, [75]); (108, [76]); (109, [77]); (110, [78]); (111, [79]);
   (112, [80]); (113, [81]); (114, [82]); (115, [83]); (116, [84]);
   (117, [85]); (118, [86]); (119, [87]); (120, [88]); (121, [89]);
   (122, [90]); (181, [924]); (223, [83; 115]); (224, [192]); (225, [193]);
   (226, [194]); (227, [195]); (228, [196]); (229, [197]); (230, [198]);
   (231, [199]); (232, [200]); (233, [201]); (234, [202]); (235, [203]);
   (236, [204]); (237, [205]); (238, [206]); (239, [207]); (240, [208]);
   (241, [209]); (242, [210]); (243, [211]); (244, [212]); (245, [213]);
   (246, [214]); (248, [216]); (249, [217]); (250, [218]); (251, [219]);
   (252, [220]); (253, [221]); (254, [222]); (255, [376])]%N.

Definition title_char (c : ascii) : list wchar :=
  match assoc (N_of_ascii c) title_table with
  | Some ns => wchar_of_code_point <$> ns
  | None => [Latin c]
  end.

(** The cased code points below 256. *)
Definition cased_codes : list N :=
  [65; 66; 67; 68; 69; 70; 71; 72; 73; 74; 75; 76; 77; 78; 79; 80; 81; 82;
   83; 84; 85; 86; 87; 88; 89; 90; 97; 98; 99; 100; 101; 102; 103; 104; 105;
   106; 107; 108; 109; 110; 111; 112; 113; 114; 115; 116; 117; 118; 119;
   120; 121; 122; 170; 181; 186; 192; 193; 194; 195; 196; 197; 198; 199;
   200; 201; 202; 203; 204; 205; 206; 207; 208; 209; 210; 211; 212; 213;
   214; 216; 217; 218; 219; 220; 221; 222; 223; 224; 225; 226; 227; 228;
   229; 230; 231; 232; 233; 234; 235; 236; 237; 238; 239; 240; 241; 242;
   243; 244; 245; 246; 248; 249; 250; 251; 252; 253; 254; 255]%N.

Definition is_cased (c : ascii) : bool := bool_decide (N_of_ascii c ∈ cased_codes).

(** [s.title()]: a character is put in title case when the character
    before it is not cased, and in lower case when it is. *)
Fixpoint title_from (previous_is_cased : bool) (s : string) : list wchar :=
  match s with
  | EmptyString => []
  | String c s' =>
      (if previous_is_cased then [Latin (lower_char c)] else title_char c)
      ++ title_from (is_cased c) s'
  end.

Definition title (s : string) : list wchar := title_from false s.

(** *** White space and lines *)

(** The white space among the code points below 256: what [strip()] takes
    away. *)
Definition space_codes : list N := [9; 10; 11; 12; 13; 28; 29; 30; 31; 32; 133; 160]%N.

Definition is_space (c : ascii) : bool := bool_decide (N_of_ascii c ∈ space_codes).

Fixpoint lstrip (s : string) : string :=
  match s with
  | EmptyString => EmptyString
  | String c s' => if is_space c then lstrip s' else s
  end.

Fixpoint rstrip (s : string) : string :=
  match s with
  | EmptyString => EmptyString
  | String c s' =>
      match rstrip s' with
      | EmptyString => if is_space c then EmptyString else String c EmptyString
      | String _ _ as r => String c r
      end
  end.

(** [s.strip()] *)
Definition strip (s : string) : string := lstrip (rstrip s).

Definition LF : ascii := "010"%char.
Definition CR : ascii := "013"%char.

(** What a file opened in text mode hands over: a carriage return, alone
    or followed by a line feed, is read as one line feed. *)
Fixpoint universal_newlines (s : string) : string :=
  match s with
  | EmptyString => EmptyString
  | String c s' =>
      if bool_decide (c = CR) then
        match s' with
        | String c' s'' =>
            if bool_decide (c' = LF) then String LF (universal_newlines s'')
            else String LF (universal_newlines s')
        | EmptyString => String LF EmptyString
        end
      else String c (universal_newlines s')
  end.

(** The lines of a text, each with its line feed when it has one. *)
Fixpoint lines_keepends (s : string) : list string :=
  match s with
  | EmptyString => []
  | String c s' =>
      if bool_decide (c = LF) then String c EmptyString :: lines_keepends s'
      else match lines_keepends s' with
           | [] => [String c EmptyString]
           | l :: ls => String c l :: ls
           end
  end.

End PyStr.

(** ** The link corrector *)

Definition no_url_msg : string :=
  "This is javascript that does not have a url. There is nothing I can do".

Definition correct_link (link_url : string) : result string :=
  if PyStr.contains "javascript:OpenWinNEU" link_url then
    if negb (PyStr.contains "http://" link_url)
       && negb (PyStr.contains "https://" link_url)
    then Raise (WebDriverException no_url_msg)
    else
      let start := PyStr.find link_url "(" + 2 in
      let end_ := PyStr.rfind link_url ")" - 1 in
      Ok (PyStr.slice link_url start end_)
  else Ok link_url.

(** ** The credential loader *)

(** What stands at a path: a file that decodes to a text, a file whose bytes
    are no text in the encoding of the system, or a directory. *)
Inductive fs_node : Type :=
  | File (content : string)
  | Undecodable
  | Directory.

(** [login_file.readlines()] on a file opened with mode ["r"]. *)
Definition readlines (content : string) : list string :=
  PyStr.lines_keepends (PyStr.universal_newlines content).

Definition get_login_credentials
    (fs : gmap string fs_node) (file_name : string) : result (string * string) :=
  match fs !! file_name with
  | None => Raise (AssertionError (file_name +:+ " does not exist!"))
  | Some Directory => Raise IsADirectoryError
  | Some Undecodable => Raise UnicodeDecodeError
  | Some (File content) =>
      match readlines content with
      | [username; password] => Ok (PyStr.strip username, PyStr.strip password)
      | _ => Raise ValueError
      end
  end.

(** ** The browser: documents and element queries *)

(** An element of the page as the driver reports it: its tag, its [id]
    attribute, its classes, its visible text, and the elements inside it. *)
Inductive element : Type :=
  Element {
    tag_name : string;
    attr_id : option string;
    class_names : list string;
    text : string;
    children : list element
  }.

(** The elements inside an element, in document order. *)
Fixpoint descendants (e : element) : list element :=
  match e with
  | Element _ _ _ _ cs =>
      (fix forest (cs : list element) : list element :=
         match cs with
         | [] => []
         | c :: cs' => c :: descendants c ++ forest cs'
         end) cs
  end.

(** The driver: the title and the document of the current page, and the
    elements on which a click was asked for so far. *)
Record driver : Type :=
  Driver {
    title : string;
    document : element;
    clicked : list element
  }.

(** [e.click()], as far as the functions on a page go: the request of the
    click is put down.  What the browser makes of the request, the error
    with which it may refuse it or the page that it loads, is the answer to
    the command [Click] of the live browser below. *)
Definition click (e : element) (d : driver) : driver :=
  {| title := title d; document := document d; clicked := clicked d ++ [e] |}.

(** Where a query looks: the driver searches the whole document, an element
    searches the elements inside it. *)
Class SearchContext (T : Type) := scope : T → list element.

Global Instance driver_context : SearchContext driver :=
  λ d, document d :: descendants (document d).

Global Instance element_context : SearchContext element := descendants.

Section queries.
Context {T : Type} `{SearchContext T}.

Definition find_elements_by_class_name (ctx : T) (name : string) : list element :=
  filter (λ e, name ∈ class_names e) (scope ctx).

Definition find_elements_by_tag_name (ctx : T) (name : string) : list element :=
  filter (λ e, tag_name e = name) (scope ctx).

Definition find_elements_by_id (ctx : T) (name : string) : list element :=
  filter (λ e, attr_id e = Some name) (scope ctx).

Definition first_element (found : list element) : result element :=
  match found with
  | e :: _ => Ok e
  | [] => Raise NoSuchElementException
  end.

Definition find_element_by_class_name (ctx : T) (name : string) : result element :=
  first_element (find_elements_by_class_name ctx name).

Definition find_element_by_id (ctx : T) (name : string) : result element :=
  first_element (find_elements_by_id ctx name).
End queries.

(** ** The page navigator *)

Definition no_tab_msg : string := "Couldn't find Self-Service Tag".

(** The [for ... else] loop over the tabs that are not the current one. *)
Fixpoint search_tabs (tags : list element) : result element :=
  match tags with
  | [] => Raise (UnexpectedTagNameException no_tab_msg)
  | tag :: tags' =>
      self_service_tag ← find_element_by_id tag "tab";
      if bool_decide (text self_service_tag = "Self-Service")
      then Ok self_service_tag
      else search_tabs tags'
  end.

Definition get_self_service_page (d : driver) : result driver :=
  tabs ← find_element_by_id d "tabs_tda";
  self_service_tag ← search_tabs (find_elements_by_class_name tabs "taboff");
  Ok (click self_service_tag d).

Fixpoint first_link (links : list element) (link_name : string) : option element :=
  match links with
  | [] => None
  | link :: links' =>
      if bool_decide (PyStr.lower (text link) = link_name) then Some link
      else first_link links' link_name
  end.

Definition find_link (d : driver) (link_name : string) : result (option element) :=
  let link_name := PyStr.lower link_name in
  Ok (first_link (find_elements_by_tag_name d "a") link_name).

(** ** The sections of the self-service tab *)

(** [{key(element): element for element in elements}]: a later element
    replaces an earlier one with the same key. *)
Definition dict_by (key : element → list wchar) (elements : list element)
    : gmap (list wchar) element :=
  foldl (λ m e, <[key e := e]> m) ∅ elements.

(** [dict(sections1, **sections2)] *)
Definition dict_join (sections1 sections2 : gmap (list wchar) element)
    : gmap (list wchar) element :=
  sections2 ∪ sections1.

Definition background : string := "uportal-background-content".

Definition get_self_service_sections (d : driver)
    : result (gmap (list wchar) element) :=
  page_table ← find_element_by_class_name d background;
  page_tr ← find_element_by_class_name page_table background;
  let sections1 :=
    dict_by (λ e, wide (text e))
            (find_elements_by_class_name page_tr "uportal-head14-bold") in
  let sections2 :=
    dict_by (λ e, PyStr.title (text e)) (find_elements_by_class_name page_tr "Taupe") in
  Ok (dict_join sections1 sections2).

(** ** The table scraper *)

(** [grouper(iterable, n)]: the items are drawn [n] at a time from one
    iterator; [k] counts the slots of the current group that are still to be
    filled and [group] holds the slots filled so far, last one first.  A last
    group that falls short is padded with the fill value [None]. *)
Fixpoint grouper_from {A : Type} (n k : nat) (group : list (option A)) (items : list A)
    : list (list (option A)) :=
  match items with
  | [] =>
      match group with
      | [] => []
      | _ :: _ => [reverse group ++ replicate k None]
      end
  | x :: items' =>
      match k with
      | O => []
      | S O => reverse (Some x :: group) :: grouper_from n n [] items'
      | S k' => grouper_from n k' (Some x :: group) items'
      end
  end.

Definition grouper {A : Type} (iterable : list A) (n : nat) : list (list (option A)) :=
  grouper_from n n [] iterable.

(** [.text] on what may be [None]. *)
Definition text_of (slot : option element) : result string :=
  match slot with
  | Some e => Ok (text e)
  | None => Raise AttributeError
  end.

(** [{k.text: v.text for k, v in groups}] *)
Fixpoint dict_of_groups (groups : list (list (option element)))
    (acc : gmap string string) : result (gmap string string) :=
  match groups with
  | [] => Ok acc
  | [k; v] :: groups' =>
      key ← text_of k;
      value ← text_of v;
      dict_of_groups groups' (<[key := value]> acc)
  | _ :: _ => Raise ValueError
  end.

(** The mapping read off the content cells of one table. *)
Definition pair_cells (cells : list element) : result (gmap string string) :=
  dict_of_groups (grouper cells 2) ∅.

Fixpoint scan_tables (tables : list element) (contents : gmap string string)
    : result (gmap string string) :=
  match tables with
  | [] => Ok contents
  | element2 :: tables' =>
      update ← pair_cells (find_elements_by_class_name element2 "Content");
      scan_tables tables' (update ∪ contents)
  end.

Fixpoint scan_blockquotes (blocks : list element) (contents : gmap string string)
    : result (gmap string string) :=
  match blocks with
  | [] => Ok contents
  | element1 :: blocks' =>
      match find_elements_by_class_name element1 "Title" with
      | [] => scan_blockquotes blocks' contents
      | _ :: _ =>
          contents' ← scan_tables (find_elements_by_tag_name element1 "table") contents;
          scan_blockquotes blocks' contents'
      end
  end.

Definition get_balance_data (d : driver) : result (gmap string string) :=
  scan_blockquotes (find_elements_by_tag_name d "blockquote") ∅.

Definition balance_page_title : string := "myNEU: View HuskyCard Balances".
Definition wrong_page_msg : string :=
  "You need to be on the Husky Account Balance Page!".
Definition meal_plan : string := "Spring 15 Meal Plan".

Definition get_dining_dollars (d : driver) : result (option string) :=
  if bool_decide (title d = balance_page_title) then
    data ← get_balance_data d;
    Ok (data !! meal_plan)
  else Raise (AssertionError wrong_page_msg).

(** ** Notions of the specification *)

Definition marker : string := "javascript:OpenWinNEU".

Fixpoint drop_last (s : string) : string :=
  match s with
  | EmptyString => EmptyString
  | String c s' =>
      match s' with
      | EmptyString => EmptyString
      | String _ _ => String c (drop_last s')
      end
  end.

(** A text without its first and without its last character. *)
Definition trim_one (s : string) : string := drop_last (PyStr.drop 1 s).

(** [payload] is what stands between the first opening parenthesis and the
    last closing parenthesis of [s]. *)
Definition wraps (s pre payload post : string) : Prop :=
  s = pre +:+ "(" +:+ payload +:+ ")" +:+ post
  ∧ PyStr.contains "(" pre = false
  ∧ PyStr.contains ")" post = false.

Definition has_url (s : string) : bool :=
  PyStr.contains "http://" s || PyStr.contains "https://" s.

(** The capital letters: A to Z, and the letters from 192 to 222, among
    which 215 is the multiplication sign. *)
Definition capital (c : ascii) : Prop :=
  (65 ≤ N_of_ascii c ≤ 90)%N
  ∨ ((192 ≤ N_of_ascii c ≤ 222)%N ∧ N_of_ascii c ≠ 215%N).

(** The small letter of a capital stands 32 places after it. *)
Definition small_of (a b : ascii) : Prop :=
  capital a ∧ N_of_ascii b = (N_of_ascii a + 32)%N.

(** Two characters that are the same letter: equal, or one the capital of
    the other. *)
Definition same_letter (a b : ascii) : Prop :=
  a = b ∨ small_of a b ∨ small_of b a.

(** Equality of texts up to the case of their letters. *)
Inductive caseless_eq : string → string → Prop :=
  | caseless_nil : caseless_eq "" ""
  | caseless_cons a b s t :
      same_letter a b → caseless_eq s t → caseless_eq (String a s) (String b t).

(** The small letters: a to z, the letters from 223 to 255, among which 247
    is the division sign, the two ordinal indicators and the micro sign. *)
Definition small (c : ascii) : Prop :=
  (97 ≤ N_of_ascii c ≤ 122)%N
  ∨ ((223 ≤ N_of_ascii c ≤ 255)%N ∧ N_of_ascii c ≠ 247%N)
  ∨ N_of_ascii c = 170%N ∨ N_of_ascii c = 181%N ∨ N_of_ascii c = 186%N.

Definition letter (c : ascii) : Prop := capital c ∨ small c.

Global Instance capital_dec (c : ascii) : Decision (capital c).
Proof. unfold capital. apply _. Defined.

Global Instance small_dec (c : ascii) : Decision (small c).
Proof. unfold small. apply _. Defined.

Global Instance letter_dec (c : ascii) : Decision (letter c).
Proof. unfold letter. apply _. Defined.





(** [e] is the last element of [l] with the property [P]. *)
Definition last_with (P : element → Prop) (l : list element) (e : element) : Prop :=
  ∃ pre post : list element,
    l = pre ++ e :: post ∧ P e ∧ Forall (λ y, ¬ P y) post.

(** [e] is the first element of [l] with the property [P]. *)
Definition first_with (P : element → Prop) (l : list element) (e : element) : Prop :=
  ∃ pre post : list element,
    l = pre ++ e :: post ∧ P e ∧ Forall (λ y, ¬ P y) pre.

(** All characters, for the properties that are checked character by
    character. *)
Definition all_chars : list ascii := (λ n, ascii_of_nat n) <$> seq 0 256.

Definition newline : string := String PyStr.LF "".
Definition crlf : string := String PyStr.CR newline.

Fixpoint no_linebreak (s : string) : bool :=
  match s with
  | EmptyString => true
  | String c s' =>
      negb (bool_decide (c = PyStr.CR)) && negb (bool_decide (c = PyStr.LF))
      && no_linebreak s'
  end.

Definition cr : string := String PyStr.CR "".

(** The three ways in which a line may end. *)
Definition line_end (t : string) : Prop := t = newline ∨ t = crlf ∨ t = cr.


(** White space: the controls 9 to 13 and 28 to 31, the space, the next
    line control 133 and the no-break space 160. *)
Definition white_space (c : ascii) : Prop :=
  (9 ≤ N_of_ascii c ≤ 13)%N ∨ (28 ≤ N_of_ascii c ≤ 32)%N
  ∨ N_of_ascii c = 133%N ∨ N_of_ascii c = 160%N.

Global Instance white_space_dec (c : ascii) : Decision (white_space c).
Proof. unfold white_space. apply _. Defined.

Fixpoint all_space (s : string) : bool :=
  match s with
  | EmptyString => true
  | String c s' => bool_decide (white_space c) && all_space s'
  end.

Definition starts_with_space (s : string) : bool :=
  match s with
  | EmptyString => false
  | String c _ => bool_decide (white_space c)
  end.

Fixpoint ends_with_space (s : string) : bool :=
  match s with
  | EmptyString => false
  | String c s' =>
      match s' with
      | EmptyString => bool_decide (white_space c)
      | String _ _ => ends_with_space s'
      end
  end.

(** [r] is [s] without the white space that surrounds it. *)
Definition stripped (s r : string) : Prop :=
  ∃ before after : string,
    s = before +:+ r +:+ after
    ∧ all_space before = true ∧ all_space after = true
    ∧ starts_with_space r = false ∧ ends_with_space r = false.

(** The label and value texts of cells that come in pairs. *)
Fixpoint pairs_of (cells : list element) : list (string * string) :=
  match cells with
  | k :: v :: cells' => (text k, text v) :: pairs_of cells'
  | _ => []
  end.

Definition dict_of_pairs (pairs : list (string * string)) : gmap string string :=
  foldl (λ m kv, <[kv.1 := kv.2]> m) ∅ pairs.

(** ** Example data *)

Definition alice_file : string := "alice" +:+ newline +:+ "password1" +:+ newline.

Definition bob_file : string := " bob" +:+ crlf +:+ "hunter2	".



Definition example_fs : gmap string fs_node :=
  {[ "creds.txt"%string := File bob_file; "home"%string := Directory ]}.

Definition leaf (tag : string) (id : option string) (classes : list string)
    (txt : string) : element :=
  Element tag id classes txt [].

Definition page (page_title : string) (body : list element) : driver :=
  Driver page_title (Element "html" None [] "" body) [].

(** A portal page with three tabs; the first one is the current tab. *)
Definition tab (class label : string) : element :=
  Element "td" None [class] label [leaf "a" (Some "tab"%string) [] label].

Definition tabs_page (label : string) : driver :=
  page "myNEU"
    [Element "table" (Some "tabs_tda"%string) [] ""
       [tab "tabon" "myNEU Central"; tab "taboff" "Community"; tab "taboff" label]].

(** A balances page with one titled block that holds one table. *)
Definition content_cell (txt : string) : element :=
  leaf "td" None ["Content"%string] txt.

Definition balances_title : element := leaf "span" None ["Title"%string] "Balances".

Definition balances_table (cells : list string) : element :=
  Element "table" None [] "" (content_cell <$> cells).

Definition balances_block (cells : list string) : element :=
  Element "blockquote" None [] "" [balances_title; balances_table cells].

Definition balances_page (cells : list string) : driver :=
  page balance_page_title [balances_block cells].





(** A page with three hyperlinks. *)
Definition link_help : element := leaf "a" None [] "Help".
Definition link_balances : element := leaf "a" None [] "Husky Card Account Balances".
Definition link_shouting : element := leaf "a" None [] "HUSKY CARD ACCOUNT BALANCES".

Definition links_page : driver :=
  page "myNEU" [Element "p" None [] "" [link_help; link_balances]; link_shouting].





(** ** Further notions of the specification *)

(** [r] occurs in [s] as one piece. *)
Definition is_substring (r s : string) : Prop :=
  ∃ before after : string, s = before +:+ r +:+ after.

(** The script invocation that opens [url], with [q1] and [q2] as the
    characters that quote it. *)
Definition wrapped_link (q1 q2 : ascii) (url : string) : string :=
  marker +:+ "(" +:+ String q1 url +:+ String q2 ")".

Fixpoint free_of (c : ascii) (s : string) : bool :=
  match s with
  | EmptyString => true
  | String c' s' => negb (bool_decide (c' = c)) && free_of c s'
  end.

(** A text without line breaks in it and without white space around it. *)
Definition clean_field (s : string) : Prop :=
  no_linebreak s = true
  ∧ starts_with_space s = false ∧ ends_with_space s = false.

(** The file that holds the given lines, each followed by a line feed. *)
Fixpoint file_of_lines (lines : list string) : string :=
  match lines with
  | [] => ""
  | l :: lines' => l +:+ newline +:+ file_of_lines lines'
  end.

(** The quoted blocks that the scraper reads: those with an element of
    class "Title" inside; then their tables, the content cells of a table,
    and the label and value texts of all these tables in document order. *)
Definition has_title (block : element) : bool :=
  match find_elements_by_class_name block "Title" with
  | [] => false
  | _ :: _ => true
  end.

Definition tables_of_blocks (blocks : list element) : list element :=
  filter (λ block, has_title block = true) blocks
  ≫= λ block, find_elements_by_tag_name block "table".

Definition scanned_tables (d : driver) : list element :=
  tables_of_blocks (find_elements_by_tag_name d "blockquote").

Definition cells_of (table : element) : list element :=
  find_elements_by_class_name table "Content".

Definition pairs_in (tables : list element) : list (string * string) :=
  tables ≫= λ table, pairs_of (cells_of table).

Definition even_cells (table : element) : bool := Nat.even (length (cells_of table)).

(** The value that stands last under a label. *)
Definition last_value (label : string) (pairs : list (string * string)) : option string :=
  snd <$> last (filter (λ kv, kv.1 = label) pairs).



(** ** The section lookup *)

(** A Python dictionary hands out its items in the order in which the keys
    were first inserted; a key that is inserted again keeps its place and
    takes the new value. *)
Fixpoint od_insert {V : Type} (k : list wchar) (v : V)
    (items : list (list wchar * V)) : list (list wchar * V) :=
  match items with
  | [] => [(k, v)]
  | (k', v') :: items' =>
      if decide (k' = k) then (k, v) :: items'
      else (k', v') :: od_insert k v items'
  end.

(** [{key(element): element for element in elements}.items()] *)
Definition items_by (key : element → list wchar) (elements : list element)
    : list (list wchar * element) :=
  foldl (λ items e, od_insert (key e) e items) [] elements.

(** [dict(sections1, **sections2).items()] *)
Definition items_join (sections1 sections2 : list (list wchar * element))
    : list (list wchar * element) :=
  foldl (λ items kv, od_insert kv.1 kv.2 items) sections1 sections2.

(** The items of the dictionary that [get_self_service_sections] returns,
    in the order in which a loop over them meets them. *)
Definition get_self_service_sections_items (d : driver)
    : result (list (list wchar * element)) :=
  page_table ← find_element_by_class_name d background;
  page_tr ← find_element_by_class_name page_table background;
  let sections1 :=
    items_by (λ e, wide (text e))
             (find_elements_by_class_name page_tr "uportal-head14-bold") in
  let sections2 :=
    items_by (λ e, PyStr.title (text e)) (find_elements_by_class_name page_tr "Taupe") in
  Ok (items_join sections1 sections2).

Definition dquote : string := String "034"%char "".

Definition no_section_msg (section : string) : string :=
  "Could not find section " +:+ dquote +:+ section +:+ dquote.

(** The [for ... else] loop over the items; a lowered title is [section]
    when it is that text, character by character. *)
Fixpoint search_sections (items : list (list wchar * element)) (section : string)
    : result element :=
  match items with
  | [] => Raise (WebDriverException (no_section_msg section))
  | (label, e) :: items' =>
      if bool_decide (PyStr.lower_wide label = wide section) then Ok e
      else search_sections items' section
  end.

Definition get_self_service_section (d : driver) (section : string) : result element :=
  let section := PyStr.lower section in
  sections ← get_self_service_sections_items d;
  search_sections sections section.

(** ** Further example data *)

(** A portal page on which a tab has lost its inner element. *)
Definition broken_tabs_page : driver :=
  page "myNEU"
    [Element "table" (Some "tabs_tda"%string) [] ""
       [tab "taboff" "Community";
        leaf "td" None ["taboff"%string] "Self-Service";
        tab "taboff" "Self-Service"]].

(** A self-service page with sections of both families, two of which
    differ in case only. *)
Definition section_housing : element :=
  leaf "span" None ["uportal-head14-bold"%string] "Housing".
Definition section_HOUSING : element :=
  leaf "span" None ["uportal-head14-bold"%string] "HOUSING".
Definition section_billing : element := leaf "span" None ["Taupe"%string] "BILLING INFO".

Definition portal_page : driver :=
  page "myNEU"
    [Element "table" None [background] ""
       [Element "tr" None [background] ""
          [section_housing; section_billing; section_HOUSING]]].

(** ** The live browser *)

(** The commands that the script sends to the browser. *)
Inductive command : Type :=
  | Launch
  | Get (url : string)
  | SendKeys (e : element) (keys : string)
  | Click (e : element).

(** The browser, seen from the script: what it shows (title and document)
    once it has carried out the last of the commands sent so far, or the
    error with which that command fails; and the [href] attribute that it
    reports for an element. *)
Record browser : Type :=
  Browser {
    respond : list command → result (string * element);
    href : element → option string
  }.

(** How a run ends: with a value, with one of the exceptions above, or with
    the type error of an operation on [None]. *)
Inductive outcome (A : Type) : Type :=
  | Returned (a : A)
  | Raised (e : exn)
  | RaisedTypeError.

Arguments Returned {A} a.
Arguments Raised {A} e.
Arguments RaisedTypeError {A}.

(** A piece of the script: from the commands sent before it to the commands
    sent after it, and how it ends.  An exception leaves the commands that
    were sent as they are. *)
Definition script (A : Type) : Type := list command → list command * outcome A.

Global Instance script_ret : MRet script := λ A a h, (h, Returned a).

Global Instance script_bind : MBind script := λ A B k m h,
  match m h with
  | (h', Returned a) => k a h'
  | (h', Raised e) => (h', Raised e)
  | (h', RaisedTypeError) => (h', RaisedTypeError)
  end.

Definition lift {A : Type} (r : result A) : script A := λ h,
  match r with
  | Ok a => (h, Returned a)
  | Raise e => (h, Raised e)
  end.

Definition raise {A : Type} (e : exn) : script A := λ h, (h, Raised e).

Definition raise_type_error {A : Type} : script A := λ h, (h, RaisedTypeError).

Definition clicks (h : list command) : list element :=
  omap (λ c, match c with Click e => Some e | _ => None end) h.

(** Sending a command: the driver then stands for the page that the browser
    shows in answer. *)
Definition perform (b : browser) (c : command) : script driver := λ h,
  let h' := h ++ [c] in
  match respond b h' with
  | Ok (page_title, doc) => (h', Returned (Driver page_title doc (clicks h')))
  | Raise e => (h', Raised e)
  end.

Definition find_element_by_tag_name {T : Type} `{SearchContext T}
    (ctx : T) (name : string) : result element :=
  first_element (find_elements_by_tag_name ctx name).

Definition LOGIN_PAGE : string := "http://myneu.neu.edu/cp/home/displaylogin".

Definition login (b : browser) (username password : string) : script driver :=
  _ ← perform b Launch;
  d ← perform b (Get LOGIN_PAGE);
  user_form ← lift (find_element_by_id d "user");
  pass_form ← lift (find_element_by_id d "pass");
  _ ← perform b (SendKeys user_form username);
  d' ← perform b (SendKeys pass_form password);
  button_class ← lift (find_element_by_class_name d' "buttons");
  button ← lift (find_element_by_tag_name button_class "input");
  perform b (Click button).

(** [get_self_service_page] on the live browser: the click that it decides
    on is sent, and the driver then stands for the page that follows. *)
Definition enter_self_service (b : browser) (d : driver) : script driver :=
  d' ← lift (get_self_service_page d);
  match last (clicked d') with
  | Some self_service_tag => perform b (Click self_service_tag)
  | None => mret d'
  end.

(** What [print(value)] writes. *)
Definition printed (value : option string) : string :=
  match value with
  | Some v => v +:+ newline
  | None => "None" +:+ newline
  end.

Definition balances_link_name : string := "husky card account balances".

(** The script itself; it returns what it has printed. *)
Definition main (b : browser) (fs : gmap string fs_node) : script string :=
  credentials ← lift (get_login_credentials fs "creds.txt");
  d ← login b credentials.1 credentials.2;
  d ← enter_self_service b d;
  found ← lift (find_link d balances_link_name);
  match found with
  | None => raise AttributeError
  | Some link =>
      match href b link with
      | None => raise_type_error
      | Some link_url =>
          url ← lift (correct_link link_url);
          d ← perform b (Get url);
          value ← lift (get_dining_dollars d);
          mret (printed value)
      end
  end.

(** ** A browser that plays the portal *)

(** The login page, the page with the tabs after the login, the page with
    the link to the balances after the click on the tab, and the balances
    page behind the link. *)
Definition login_page : string * element :=
  ("myNEU Login"%string,
   Element "html" None [] ""
     [leaf "input" (Some "user"%string) [] "";
      leaf "input" (Some "pass"%string) [] "";
      Element "div" None ["buttons"%string] "" [leaf "input" None [] "Login"]]).

Definition balances_url : string := "http://example.com/balances".

Definition balances_link : element := leaf "a" None [] "Husky Card Account Balances".

Definition self_service_page : string * element :=
  ("myNEU Self-Service"%string, Element "html" None [] "" [link_help; balances_link]).

Definition view (d : driver) : string * element := (title d, document d).

Definition portal_respond (h : list command) : result (string * element) :=
  match last h with
  | Some (Get url) =>
      if bool_decide (url = LOGIN_PAGE) then Ok login_page
      else if bool_decide (url = balances_url)
      then Ok (view (balances_page ["Spring 15 Meal Plan"; "42.00"]%string))
      else Raise (WebDriverException "Reached error page")
  | Some (SendKeys _ _) => Ok login_page
  | Some (Click e) =>
      if bool_decide (tag_name e = "input"%string)
      then Ok (view (tabs_page "Self-Service"))
      else Ok self_service_page
  | Some Launch | None => Ok (""%string, leaf "html" None [] "")
  end.

Definition portal_href (e : element) : option string :=
  if bool_decide (text e = "Husky Card Account Balances"%string)
  then Some (wrapped_link "'" "'" balances_url)
  else None.

Definition portal : browser := Browser portal_respond portal_href.

Definition two_line_fs : gmap string fs_node :=
  {[ "creds.txt"%string := File alice_file ]}.

(** What [login] may send: the launch, the request of the login page, the
    user name to an element with the id "user", the password to an element
    with the id "pass", and a click on an [input] element. *)
Definition login_command (username password : string) (c : command) : Prop :=
  match c with
  | Launch => True
  | Get url => url = LOGIN_PAGE
  | SendKeys e keys =>
      (attr_id e = Some "user"%string ∧ keys = username)
      ∨ (attr_id e = Some "pass"%string ∧ keys = password)
  | Click e => tag_name e = "input"%string
  end.

(** A piece of the script that takes back no command. *)
Definition keeps_history {A : Type} (m : script A) : Prop :=
  ∀ (h h' : list command) (r : outcome A), m h = (h', r) → h `prefix_of` h'.

(** A browser that plays a login page without a button. *)
Definition bare_login_page : string * element :=
  ("myNEU Login"%string,
   Element "html" None [] ""
     [leaf "input" (Some "user"%string) [] "";
      leaf "input" (Some "pass"%string) [] ""]).

Definition bare_portal : browser := Browser (λ _, Ok bare_login_page) (λ _, None).

(** A browser that plays a login page without forms. *)
Definition blank_portal : browser :=
  Browser (λ _, Ok (""%string, leaf "html" None [] "")) (λ _, None).

(** The driver after the login with the portal. *)
Definition logged_in : driver :=
  Driver (title (tabs_page "Self-Service")) (document (tabs_page "Self-Service"))
         [leaf "input" None [] "Login"].

(** ** Facts about the string operations *)

Section string_facts.

Import PyStr.

Lemma app_cons (c : ascii) (s t : string) :
  String c s +:+ t = String c (s +:+ t).
Proof. reflexivity. Qed.

Lemma app_empty_l (t : string) : "" +:+ t = t.
Proof. reflexivity. Qed.

Lemma app_assoc_str (s t u : string) : (s +:+ t) +:+ u = s +:+ t +:+ u.
Proof. induction s as [|c s IH]; [done|]. by rewrite !app_cons, IH. Qed.

Lemma length_app (s t : string) :
  String.length (s +:+ t) = (String.length s + String.length t)%nat.
Proof. induction s as [|c s IH]; [done|]. rewrite app_cons. simpl. by rewrite IH. Qed.

Lemma drop_app_length (s t : string) : drop (String.length s) (s +:+ t) = t.
Proof. induction s as [|c s IH]; [by destruct t|]. by rewrite app_cons. Qed.

Lemma drop_drop (n m : nat) (s : string) : drop n (drop m s) = drop (m + n) s.
Proof.
  revert s. induction m as [|m IH]; intros s; [done|].
  destruct s as [|c s]; simpl; [by destruct n|]. apply IH.
Qed.

Lemma length_drop (n : nat) (s : string) :
  String.length (drop n s) = (String.length s - n)%nat.
Proof.
  revert s. induction n as [|n IH]; intros [|c s]; simpl; try done; lia.
Qed.

Lemma length_take_le (n : nat) (s : string) :
  (String.length (take n s) ≤ String.length s)%nat.
Proof.
  revert s. induction n as [|n IH]; intros [|c s]; simpl; try lia.
  specialize (IH s). lia.
Qed.

Lemma startswith_nonempty_empty (sub : string) :
  sub ≠ ""%string → startswith sub "" = false.
Proof. by destruct sub. Qed.

Lemma contains_empty (sub : string) : sub ≠ ""%string → contains sub "" = false.
Proof. intros ?. simpl. by rewrite startswith_nonempty_empty. Qed.

Lemma contains_cons (sub : string) (c : ascii) (s : string) :
  contains sub (String c s) = startswith sub (String c s) || contains sub s.
Proof. reflexivity. Qed.

Lemma contains_nonempty (sub s : string) :
  sub ≠ ""%string → contains sub s = true → s ≠ ""%string.
Proof. intros Hsub Hc ->. by rewrite contains_empty in Hc. Qed.

(** [find] and [rfind] agree with [in] on whether there is an occurrence. *)
Lemma index_of_none (sub s : string) :
  contains sub s = false → index_of sub s = None.
Proof.
  induction s as [|c s IH]; simpl.
  - destruct (startswith sub ""); naive_solver.
  - destruct (startswith sub (String c s)); simpl; [done|].
    intros H. by rewrite IH.
Qed.

Lemma rindex_of_none (sub s : string) :
  contains sub s = false → rindex_of sub s = None.
Proof.
  induction s as [|c s IH]; simpl.
  - destruct (startswith sub ""); naive_solver.
  - destruct (startswith sub (String c s)); simpl; [done|].
    intros H. by rewrite IH.
Qed.

Lemma index_of_lt (sub s : string) (i : nat) :
  index_of sub s = Some i → (i ≤ String.length s)%nat.
Proof.
  revert i. induction s as [|c s IH]; intros i; simpl.
  - destruct (startswith sub ""); naive_solver.
  - destruct (startswith sub (String c s)); [intros [= <-]; lia|].
    destruct (index_of sub s) as [j|]; simpl; [|done].
    intros [= <-]. specialize (IH j eq_refl). lia.
Qed.

(** The leftmost occurrence of a character that the text before it lacks. *)
Lemma index_of_char_app (c : ascii) (pre rest : string) :
  contains (String c "") pre = false →
  index_of (String c "") (pre +:+ String c rest) = Some (String.length pre).
Proof.
  induction pre as [|b pre IH]; intros Hpre.
  - rewrite app_empty_l. simpl. by rewrite bool_decide_eq_true_2.
  - rewrite app_cons. rewrite contains_cons in Hpre.
    apply orb_false_iff in Hpre as [Hb Hpre].
    cbn [index_of]. cbn [startswith] in Hb |- *.
    destruct (bool_decide (c = b)); [done|]. simpl.
    by rewrite IH.
Qed.

(** The rightmost occurrence of a character that the text after it lacks. *)
Lemma rindex_of_char_app (c : ascii) (pre post : string) :
  contains (String c "") post = false →
  rindex_of (String c "") (pre +:+ String c post) = Some (String.length pre).
Proof.
  intros Hpost. induction pre as [|b pre IH].
  - rewrite app_empty_l. cbn [rindex_of].
    rewrite (rindex_of_none _ _ Hpost). simpl.
    by rewrite bool_decide_eq_true_2.
  - rewrite app_cons. cbn [rindex_of]. by rewrite IH.
Qed.

Lemma adjust_nonneg (len i : Z) : 0 ≤ len → 0 ≤ adjust len i ≤ len.
Proof. unfold adjust. destruct (Z.ltb_spec i 0); lia. Qed.

(** A slice that starts after the first character is shorter than the text. *)
Lemma length_slice_lt (s : string) (start stop : Z) :
  s ≠ ""%string → 1 ≤ start →
  (String.length (slice s start stop) < String.length s)%nat.
Proof.
  intros Hs Hstart. unfold slice.
  set (len := Z.of_nat (String.length s)).
  assert (1 ≤ len) by (destruct s; [done|]; subst len; simpl; lia).
  assert (1 ≤ adjust len start)
    by (unfold adjust; destruct (Z.ltb_spec start 0); lia).
  pose proof (length_take_le
    (Z.to_nat (adjust len stop - adjust len start))
    (drop (Z.to_nat (adjust len start)) s)) as Hle.
  rewrite length_drop in Hle. lia.
Qed.

End string_facts.

(** ** The link corrector *)

Section link_corrector.

Import PyStr.

Lemma take_pred_app (m rest : string) :
  take (String.length m - 1) (m +:+ rest) = drop_last m.
Proof.
  induction m as [|c m IH]; [done|].
  rewrite app_cons. destruct m as [|c' m]; [done|].
  cbn [String.length drop_last] in *.
  replace (S (S (String.length m)) - 1)%nat with (S (String.length m)) by lia.
  cbn [take]. f_equal. rewrite <- IH. f_equal. lia.
Qed.

(** The slice that [correct_link] takes, on a text with its parentheses
    located. *)
Lemma slice_between (a b : ascii) (pre mid post : string) :
  let s := pre +:+ String a (mid +:+ String b post) in
  slice s (Z.of_nat (String.length pre) + 2)
          (Z.of_nat (String.length pre + 1 + String.length mid) - 1)
  = trim_one mid.
Proof.
  intros s. unfold slice.
  assert (Hlen : String.length s
                 = (String.length pre + String.length mid
                    + String.length post + 2)%nat).
  { subst s. rewrite length_app. cbn [String.length].
    rewrite length_app. cbn [String.length]. lia. }
  rewrite Hlen. unfold adjust.
  destruct (Z.ltb_spec (Z.of_nat (String.length pre) + 2) 0); [lia|].
  destruct (Z.ltb_spec
    (Z.of_nat (String.length pre + 1 + String.length mid) - 1) 0); [lia|].
  rewrite !Z.min_l by lia.
  replace (Z.to_nat (Z.of_nat (String.length pre) + 2))
    with (String.length pre + 2)%nat by lia.
  rewrite <- drop_drop. subst s. rewrite drop_app_length.
  replace (Z.to_nat _) with (String.length mid - 2)%nat by lia.
  unfold trim_one. destruct mid as [|c mid]; [done|].
  rewrite app_cons. cbn [drop String.length].
  replace (S (String.length mid) - 2)%nat with (String.length mid - 1)%nat by lia.
  apply take_pred_app.
Qed.

Lemma find_open_paren (s pre mid post : string) :
  wraps s pre mid post → find s "(" = Z.of_nat (String.length pre).
Proof.
  intros (-> & Hpre & _). unfold find.
  change ("(" +:+ mid +:+ ")" +:+ post)
    with (String "("%char (mid +:+ ")" +:+ post)).
  by rewrite index_of_char_app.
Qed.

Lemma rfind_close_paren (s pre mid post : string) :
  wraps s pre mid post →
  rfind s ")" = Z.of_nat (String.length pre + 1 + String.length mid).
Proof.
  intros (-> & _ & Hpost). unfold rfind.
  change ("(" +:+ mid +:+ ")" +:+ post)
    with (String "("%char (mid +:+ String ")"%char post)).
  replace (pre +:+ String "("%char (mid +:+ String ")"%char post))
    with ((pre +:+ String "("%char mid) +:+ String ")"%char post)
    by (by rewrite app_assoc_str, app_cons).
  rewrite rindex_of_char_app by done.
  rewrite length_app. cbn [String.length]. lia.
Qed.

Lemma correct_link_plain (s : string) :
  contains marker s = false → correct_link s = Ok s.
Proof. unfold correct_link. fold marker. by intros ->. Qed.

Lemma correct_link_no_url (s : string) :
  contains marker s = true → has_url s = false →
  correct_link s = Raise (WebDriverException no_url_msg).
Proof.
  unfold correct_link, has_url. fold marker. intros -> Hurl.
  apply orb_false_iff in Hurl as [-> ->]. done.
Qed.

Lemma correct_link_slice (s : string) :
  contains marker s = true → has_url s = true →
  correct_link s = Ok (slice s (find s "(" + 2) (rfind s ")" - 1)).
Proof.
  unfold correct_link, has_url. fold marker. intros -> Hurl.
  destruct (contains "http://" s), (contains "https://" s); done.
Qed.

End link_corrector.

(** ** Case and white space, character by character *)

Section letters.

Import PyStr.

Lemma ascii_code_inj (a b : ascii) : N_of_ascii a = N_of_ascii b → a = b.
Proof.
  intros H. rewrite <- (ascii_N_embedding a), <- (ascii_N_embedding b).
  by rewrite H.
Qed.

Lemma all_chars_complete (c : ascii) : c ∈ all_chars.
Proof.
  unfold all_chars. apply list_elem_of_fmap. exists (nat_of_ascii c). split.
  - by rewrite ascii_nat_embedding.
  - apply elem_of_seq. pose proof (nat_ascii_bounded c). lia.
Qed.

(** A decidable property that holds of the 256 characters holds of every
    character. *)
Lemma for_all_chars (P : ascii → Prop) `{∀ c, Decision (P c)} :
  forallb (λ c, bool_decide (P c)) all_chars = true → ∀ c, P c.
Proof.
  intros Hall c. rewrite forallb_forall in Hall.
  apply (bool_decide_eq_true_1 (P c)), Hall, list_elem_of_In, all_chars_complete.
Qed.

Ltac check_chars :=
  match goal with
  | |- ∀ c : ascii, @?P c =>
      refine (for_all_chars P (H := λ c, _) _); vm_compute; reflexivity
  end.

Lemma lower_char_code (c : ascii) :
  N_of_ascii (lower_char c)
  = (if bool_decide (capital c) then N_of_ascii c + 32 else N_of_ascii c)%N.
Proof. revert c. check_chars. Qed.

Lemma lower_char_capital (C c : ascii) : small_of C c → lower_char C = c.
Proof.
  intros [HC Hc]. apply ascii_code_inj. rewrite lower_char_code.
  by rewrite bool_decide_eq_true_2.
Qed.

Lemma lower_char_not_capital (c : ascii) : ¬ capital c → lower_char c = c.
Proof.
  intros Hc. apply ascii_code_inj. rewrite lower_char_code.
  by rewrite bool_decide_eq_false_2.
Qed.

Lemma small_of_not_capital (C c : ascii) : small_of C c → ¬ capital c.
Proof. unfold small_of, capital. lia. Qed.

(** Lowering both sides identifies exactly the characters that are the same
    letter. *)
Lemma same_letter_lower (a b : ascii) :
  same_letter a b ↔ lower_char a = lower_char b.
Proof.
  split.
  - intros [-> | [H | H]]; [done | |].
    + rewrite (lower_char_capital a b H).
      symmetry. by eapply lower_char_not_capital, small_of_not_capital.
    + rewrite (lower_char_capital b a H).
      by eapply lower_char_not_capital, small_of_not_capital.
  - intros H. apply (f_equal N_of_ascii) in H. rewrite !lower_char_code in H.
    unfold same_letter, small_of.
    do 2 case_bool_decide.
    + left. apply ascii_code_inj. lia.
    + right; left. split; [done|lia].
    + right; right. split; [done|lia].
    + left. by apply ascii_code_inj.
Qed.

Lemma caseless_eq_lower (s t : string) : caseless_eq s t ↔ lower s = lower t.
Proof.
  split.
  - induction 1 as [|a b s t Hab _ IH]; [done|].
    cbn [lower]. apply same_letter_lower in Hab. by rewrite Hab, IH.
  - revert t. induction s as [|a s IH]; intros [|b t] H; try done.
    + constructor.
    + cbn [lower] in H. injection H as Hab Hst.
      constructor; [by apply same_letter_lower | by apply IH].
Qed.

Lemma lower_char_idempotent (c : ascii) : lower_char (lower_char c) = lower_char c.
Proof. revert c. check_chars. Qed.

Lemma lower_idempotent (s : string) : lower (lower s) = lower s.
Proof.
  induction s as [|a s IH]; [done|]. cbn [lower].
  by rewrite IH, lower_char_idempotent.
Qed.

(** *** White space *)

Lemma is_space_white_space (c : ascii) : is_space c = bool_decide (white_space c).
Proof. revert c. check_chars. Qed.

(** *** Title case *)













(** *** Texts and their wide form *)



(** *** Title case and lower case *)





End letters.
(** ** Lines and white space *)

Section lines.

Import PyStr.

Lemma app_empty_r (s : string) : s +:+ "" = s.
Proof. induction s as [|c s IH]; [done|]. by rewrite app_cons, IH. Qed.

Lemma no_linebreak_cons (c : ascii) (s : string) :
  no_linebreak (String c s) = true → c ≠ CR ∧ c ≠ LF ∧ no_linebreak s = true.
Proof.
  cbn [no_linebreak]. intros H.
  apply andb_true_iff in H as [H Hs]. apply andb_true_iff in H as [Hcr Hlf].
  apply negb_true_iff, bool_decide_eq_false in Hcr.
  apply negb_true_iff, bool_decide_eq_false in Hlf. done.
Qed.

Lemma universal_newlines_plain_app (a x : string) :
  no_linebreak a = true →
  universal_newlines (a +:+ x) = a +:+ universal_newlines x.
Proof.
  induction a as [|c a IH]; [done|].
  intros (Hcr & _ & Ha)%no_linebreak_cons.
  rewrite !app_cons. cbn [universal_newlines].
  rewrite bool_decide_eq_false_2 by done. by rewrite IH.
Qed.


Lemma universal_newlines_line_end (t x : string) :
  line_end t →
  (t = cr → ∀ x', x ≠ String LF x') →
  universal_newlines (t +:+ x) = newline +:+ universal_newlines x.
Proof.
  intros [-> | [-> | ->]] Hx; [done | done |].
  change (cr +:+ x) with (String CR x). cbn [universal_newlines].
  rewrite bool_decide_eq_true_2 by done.
  destruct x as [|c x]; [done|].
  rewrite bool_decide_eq_false_2; [done|].
  intros ->. by apply (Hx eq_refl x).
Qed.


Lemma lines_keepends_line (a x : string) :
  no_linebreak a = true →
  lines_keepends (a +:+ newline +:+ x) = (a +:+ newline) :: lines_keepends x.
Proof.
  induction a as [|c a IH]; [done|].
  intros (_ & Hlf & Ha)%no_linebreak_cons.
  rewrite !app_cons. cbn [lines_keepends].
  rewrite bool_decide_eq_false_2 by done. by rewrite IH.
Qed.



Lemma rstrip_space (c : ascii) : is_space c = true → rstrip (String c "") = ""%string.
Proof. intros H. cbn [rstrip]. by rewrite H. Qed.

Lemma rstrip_app_space (a : string) (c : ascii) :
  is_space c = true → rstrip (a +:+ String c "") = rstrip a.
Proof.
  intros Hc. induction a as [|x a IH].
  - rewrite app_empty_l. by rewrite rstrip_space.
  - rewrite app_cons. cbn [rstrip]. by rewrite IH.
Qed.

(** The line feed that ends a line does not survive [strip]. *)
Lemma strip_line (a : string) : strip (a +:+ newline) = strip a.
Proof. unfold strip, newline. by rewrite rstrip_app_space. Qed.

Lemma rstrip_spec (s : string) :
  ∃ after : string,
    s = rstrip s +:+ after ∧ all_space after = true
    ∧ ends_with_space (rstrip s) = false.
Proof.
  induction s as [|c s (after & Hs & Hafter & Hend)].
  - by exists ""%string.
  - cbn [rstrip]. destruct (rstrip s) as [|c' r] eqn:Hr.
    + rewrite is_space_white_space.
      destruct (bool_decide (white_space c)) eqn:Hc.
      * exists (String c s). rewrite app_empty_l in Hs. subst after.
        split; [done|]. split; [|done]. cbn [all_space]. by rewrite Hc.
      * exists after. rewrite app_empty_l in Hs. subst after.
        split; [done|]. split; [done|]. exact Hc.
    + exists after. split; [by rewrite app_cons, <- Hs|]. split; [done|].
      exact Hend.
Qed.

Lemma lstrip_spec (s : string) :
  ∃ before : string,
    s = before +:+ lstrip s ∧ all_space before = true
    ∧ starts_with_space (lstrip s) = false.
Proof.
  induction s as [|c s (before & Hs & Hbefore & Hstart)].
  - by exists ""%string.
  - cbn [lstrip]. rewrite is_space_white_space.
    destruct (bool_decide (white_space c)) eqn:Hc.
    + exists (String c before). split; [by rewrite app_cons, <- Hs|].
      split; [|done]. cbn [all_space]. by rewrite Hc.
    + exists ""%string. split; [done|]. split; [done|]. exact Hc.
Qed.

Lemma lstrip_ends (s : string) :
  ends_with_space s = false → ends_with_space (lstrip s) = false.
Proof.
  induction s as [|c s IH]; [done|].
  intros Hend. cbn [lstrip]. destruct (is_space c) eqn:Hc; [|done].
  apply IH. destruct s as [|c' s]; [done|]. exact Hend.
Qed.

(** [strip] takes away the white space around a text and nothing else. *)
Lemma strip_spec (s : string) : stripped s (strip s).
Proof.
  unfold strip.
  destruct (rstrip_spec s) as (after & Hs & Hafter & Hend).
  destruct (lstrip_spec (rstrip s)) as (before & Hr & Hbefore & Hstart).
  exists before, after. split.
  - rewrite <- app_assoc_str, <- Hr. exact Hs.
  - repeat split; try done. by apply lstrip_ends.
Qed.









End lines.

(** ** Dictionaries built from elements *)

Section dictionaries.



End dictionaries.

(** ** Loops over elements *)

Section loops.

(** The tab loop stops at the first tab whose inner element reads
    "Self-Service", as long as the tabs before it have an inner element. *)
Lemma search_tabs_found (pre post : list element) (tag e : element) :
  Forall (λ t, ∃ e', find_element_by_id t "tab" = Ok e'
                     ∧ text e' ≠ "Self-Service"%string) pre →
  find_element_by_id tag "tab" = Ok e →
  text e = "Self-Service"%string →
  search_tabs (pre ++ tag :: post) = Ok e.
Proof.
  intros Hpre Htag Htext. induction Hpre as [|t pre (e' & He' & Hne) _ IH].
  - cbn [app search_tabs]. rewrite Htag. cbn.
    by rewrite bool_decide_eq_true_2.
  - cbn [app search_tabs]. rewrite He'. cbn.
    by rewrite bool_decide_eq_false_2.
Qed.

Lemma search_tabs_not_found (tags : list element) :
  Forall (λ t, ∃ e', find_element_by_id t "tab" = Ok e'
                     ∧ text e' ≠ "Self-Service"%string) tags →
  search_tabs tags = Raise (UnexpectedTagNameException no_tab_msg).
Proof.
  induction 1 as [|t tags (e' & He' & Hne) _ IH]; [done|].
  cbn [search_tabs]. rewrite He'. cbn. by rewrite bool_decide_eq_false_2.
Qed.


Lemma first_link_none (links : list element) (name : string) :
  Forall (λ l, PyStr.lower (text l) ≠ name) links →
  first_link links name = None.
Proof.
  induction 1 as [|l links Hne _ IH]; [done|].
  cbn [first_link]. by rewrite bool_decide_eq_false_2.
Qed.

End loops.

(** ** Pairing the cells of a table *)

Section pairing.

Lemma pair_induction {A : Type} (P : list A → Prop) :
  P [] → (∀ x, P [x]) → (∀ x y l, P l → P (x :: y :: l)) → ∀ l, P l.
Proof.
  intros Hnil Hone Hstep l.
  assert (H : P l ∧ ∀ x, P (x :: l)); [|by destruct H].
  induction l as [|y l [IH1 IH2]]; [by split|].
  split; [apply IH2 | intros x; by apply Hstep].
Qed.

Lemma grouper_pair {A : Type} (x y : A) (l : list A) :
  grouper (x :: y :: l) 2 = [Some x; Some y] :: grouper l 2.
Proof. reflexivity. Qed.

Lemma grouper_single {A : Type} (x : A) : grouper [x] 2 = [[Some x; None]].
Proof. reflexivity. Qed.

(** Cells in even number are paired off; with an odd number the last group
    is padded with [None], whose [text] the comprehension then asks for. *)
Lemma dict_of_groups_grouper (cells : list element) :
  ∀ acc : gmap string string,
    dict_of_groups (grouper cells 2) acc
    = if Nat.even (length cells)
      then Ok (foldl (λ m kv, <[kv.1 := kv.2]> m) acc (pairs_of cells))
      else Raise AttributeError.
Proof.
  induction cells as [|x|x y cells IH] using pair_induction; intros acc.
  - done.
  - done.
  - rewrite grouper_pair. cbn [dict_of_groups text_of]. cbn.
    by rewrite IH.
Qed.

Lemma pair_cells_parity (cells : list element) :
  pair_cells cells
  = if Nat.even (length cells) then Ok (dict_of_pairs (pairs_of cells))
    else Raise AttributeError.
Proof. apply dict_of_groups_grouper. Qed.

End pairing.

(** ** Queries on the example pages *)

Section pages.

Lemma descendants_cons (t : string) (i : option string) (c : list string)
    (x : string) (e : element) (es : list element) :
  descendants (Element t i c x (e :: es))
  = e :: descendants e ++ descendants (Element t i c x es).
Proof. reflexivity. Qed.

Lemma descendants_cells (t : string) (i : option string) (c : list string)
    (x : string) (texts : list string) :
  descendants (Element t i c x (content_cell <$> texts)) = content_cell <$> texts.
Proof.
  induction texts as [|y texts IH]; [done|].
  rewrite fmap_cons, descendants_cons, IH. done.
Qed.

Lemma cells_without_tag (name : string) (texts : list string) :
  name ≠ "td"%string →
  filter (λ e, tag_name e = name) (content_cell <$> texts) = [].
Proof.
  intros Hne. induction texts as [|y texts IH]; [done|].
  rewrite fmap_cons, filter_cons_False; [done|]. cbn. congruence.
Qed.

Lemma cells_without_class (name : string) (texts : list string) :
  name ≠ "Content"%string →
  filter (λ e, name ∈ class_names e) (content_cell <$> texts) = [].
Proof.
  intros Hne. induction texts as [|y texts IH]; [done|].
  rewrite fmap_cons, filter_cons_False; [done|].
  cbn. by intros ?%list_elem_of_singleton.
Qed.

Lemma cells_with_content (texts : list string) :
  filter (λ e, "Content"%string ∈ class_names e) (content_cell <$> texts)
  = content_cell <$> texts.
Proof.
  induction texts as [|y texts IH]; [done|].
  rewrite fmap_cons, filter_cons_True; [by rewrite IH|].
  cbn. by apply list_elem_of_singleton.
Qed.

Lemma descendants_balances_table (texts : list string) :
  descendants (balances_table texts) = content_cell <$> texts.
Proof. apply descendants_cells. Qed.

Lemma descendants_balances_block (texts : list string) :
  descendants (balances_block texts)
  = balances_title :: balances_table texts :: (content_cell <$> texts).
Proof.
  unfold balances_block. rewrite !descendants_cons, descendants_balances_table.
  cbn. by rewrite app_nil_r.
Qed.

Lemma blockquotes_balances_page (texts : list string) :
  find_elements_by_tag_name (balances_page texts) "blockquote"
  = [balances_block texts].
Proof.
  unfold find_elements_by_tag_name, scope, driver_context, balances_page, page.
  cbn [document]. rewrite descendants_cons, descendants_balances_block.
  cbn [descendants app]. rewrite app_nil_r.
  rewrite filter_cons_False by done. rewrite filter_cons_True by done.
  rewrite !filter_cons_False by done. by rewrite cells_without_tag.
Qed.

Lemma titles_balances_block (texts : list string) :
  find_elements_by_class_name (balances_block texts) "Title" = [balances_title].
Proof.
  unfold find_elements_by_class_name, scope, element_context.
  rewrite descendants_balances_block.
  rewrite filter_cons_True by (by apply list_elem_of_singleton).
  rewrite filter_cons_False by (cbn; apply not_elem_of_nil).
  by rewrite cells_without_class.
Qed.

Lemma tables_balances_block (texts : list string) :
  find_elements_by_tag_name (balances_block texts) "table" = [balances_table texts].
Proof.
  unfold find_elements_by_tag_name, scope, element_context.
  rewrite descendants_balances_block.
  rewrite filter_cons_False by done. rewrite filter_cons_True by done.
  by rewrite cells_without_tag.
Qed.

Lemma contents_balances_table (texts : list string) :
  find_elements_by_class_name (balances_table texts) "Content"
  = content_cell <$> texts.
Proof.
  unfold find_elements_by_class_name, scope, element_context.
  rewrite descendants_balances_table. apply cells_with_content.
Qed.

(** On a balances page the scraper reads the cells of its one table. *)
Lemma get_balance_data_balances_page (texts : list string) :
  get_balance_data (balances_page texts) = pair_cells (content_cell <$> texts).
Proof.
  unfold get_balance_data. rewrite blockquotes_balances_page.
  cbn [scan_blockquotes]. rewrite titles_balances_block, tables_balances_block.
  cbn [scan_tables]. rewrite contents_balances_table.
  destruct (pair_cells (content_cell <$> texts)) as [update|e]; [|done].
  cbn. by rewrite (right_id_L ∅ (∪)).
Qed.

Lemma length_cells (texts : list string) :
  length (content_cell <$> texts) = length texts.
Proof. apply length_fmap. Qed.

End pages.

(** ** More about texts and slices *)

Section slices.

Import PyStr.

Lemma take_drop_str (n : nat) (s : string) : take n s +:+ drop n s = s.
Proof.
  revert s. induction n as [|n IH]; intros [|c s]; try done.
  cbn [take drop]. by rewrite app_cons, IH.
Qed.

Lemma length_take (n : nat) (s : string) :
  String.length (take n s) = Nat.min n (String.length s).
Proof.
  revert s. induction n as [|n IH]; intros [|c s]; try done.
  cbn [take String.length]. rewrite IH. lia.
Qed.

Lemma take_take (n m : nat) (s : string) : take n (take m s) = take (Nat.min n m) s.
Proof.
  revert m s. induction n as [|n IH]; intros [|m] [|c s]; try done.
  cbn [take Nat.min]. by rewrite IH.
Qed.

Lemma take_pred_length (s : string) : take (String.length s - 1) s = drop_last s.
Proof.
  rewrite <- (app_empty_r s) at 2. apply take_pred_app.
Qed.

Lemma slice_substring (s : string) (start stop : Z) : is_substring (slice s start stop) s.
Proof.
  unfold slice.
  set (a := Z.to_nat (adjust (Z.of_nat (String.length s)) start)).
  set (m := Z.to_nat _).
  exists (take a s), (drop m (drop a s)).
  by rewrite take_drop_str, take_drop_str.
Qed.

(** An occurrence in a part is an occurrence in the whole. *)
Lemma startswith_app (sub s t : string) :
  startswith sub s = true → startswith sub (s +:+ t) = true.
Proof.
  revert s. induction sub as [|a sub IH]; intros [|b s]; try done.
  rewrite app_cons. cbn [startswith].
  intros [Hab Hs]%andb_true_iff. rewrite Hab. by apply IH.
Qed.

Lemma contains_app_l (sub s t : string) :
  contains sub s = true → contains sub (s +:+ t) = true.
Proof.
  induction s as [|c s IH].
  - cbn [contains]. rewrite orb_false_r. intros H.
    destruct sub; [by destruct t|done].
  - rewrite app_cons, !contains_cons.
    intros [H | H]%orb_true_iff; apply orb_true_iff.
    + left. rewrite <- app_cons. by apply startswith_app.
    + right. by apply IH.
Qed.

Lemma contains_app_r (sub s t : string) :
  contains sub t = true → contains sub (s +:+ t) = true.
Proof.
  intros H. induction s as [|c s IH]; [done|].
  rewrite app_cons, contains_cons, IH. apply orb_true_r.
Qed.

Lemma has_url_app_l (s t : string) : has_url s = true → has_url (s +:+ t) = true.
Proof.
  unfold has_url. intros [H | H]%orb_true_iff; apply orb_true_iff;
    [left | right]; by apply contains_app_l.
Qed.

Lemma has_url_app_r (s t : string) : has_url t = true → has_url (s +:+ t) = true.
Proof.
  unfold has_url. intros [H | H]%orb_true_iff; apply orb_true_iff;
    [left | right]; by apply contains_app_r.
Qed.

Lemma drop_last_snoc (s : string) (c : ascii) : drop_last (s +:+ String c "") = s.
Proof.
  induction s as [|b s IH]; [done|].
  rewrite app_cons. cbn [drop_last]. rewrite IH.
  destruct s; by rewrite ?app_cons.
Qed.

Lemma find_none (s sub : string) : contains sub s = false → find s sub = -1.
Proof. intros H. unfold find. by rewrite index_of_none. Qed.

Lemma rfind_none (s sub : string) : contains sub s = false → rfind s sub = -1.
Proof. intros H. unfold rfind. by rewrite rindex_of_none. Qed.

(** [s[1:-2]] for a text of three characters or more. *)
Lemma slice_1_minus_2 (s : string) :
  (3 ≤ String.length s)%nat →
  slice s 1 (-2) = drop_last (drop_last (drop 1 s)).
Proof.
  intros Hlen. unfold slice, adjust.
  destruct (Z.ltb_spec 1 0); [lia|]. destruct (Z.ltb_spec (-2) 0); [|lia].
  rewrite Z.min_l, Z.max_l by lia.
  replace (Z.to_nat 1) with 1%nat by lia.
  rewrite <- !take_pred_length, take_take, length_take, length_drop.
  f_equal. lia.
Qed.

Lemma length_contains (sub s : string) :
  contains sub s = true → (String.length sub ≤ String.length s)%nat.
Proof.
  assert (Hstart : ∀ a b, startswith a b = true →
                          (String.length a ≤ String.length b)%nat).
  { induction a as [|x a IH]; intros [|y b]; cbn; try done; try lia.
    intros [_ H]%andb_true_iff. specialize (IH b H). lia. }
  induction s as [|c s IH].
  - cbn [contains]. rewrite orb_false_r. apply Hstart.
  - rewrite contains_cons. intros [H | H]%orb_true_iff.
    + by apply Hstart.
    + specialize (IH H). cbn [String.length]. lia.
Qed.

End slices.

(** ** Groups of a fixed size *)

Section groups.

Context {A : Type}.

(** While a group is being filled, the slots taken and the slots left make
    up the size of a group. *)
Lemma grouper_from_lengths (n : nat) (items : list A) :
  ∀ (k : nat) (group : list (option A)),
    (length group + k = n)%nat →
    Forall (λ g, length g = n) (grouper_from n k group items).
Proof.
  induction items as [|x items IH]; intros k group Hinv.
  - cbn [grouper_from]. destruct group as [|slot group]; [constructor|].
    repeat constructor.
    rewrite List.length_app, length_reverse, length_replicate. exact Hinv.
  - cbn [grouper_from]. destruct k as [|[|k]].
    + constructor.
    + constructor.
      * rewrite length_reverse. cbn [length] in *. lia.
      * apply IH. cbn [length]. lia.
    + apply IH. cbn [length]. lia.
Qed.

Lemma grouper_from_concat (n : nat) (items : list A) :
  ∀ (k : nat) (group : list (option A)),
    (1 ≤ k)%nat → (length group + k = n)%nat →
    ∃ pad : nat,
      (pad < n)%nat
      ∧ concat (grouper_from n k group items)
        = reverse group ++ (Some <$> items) ++ replicate pad None.
Proof.
  induction items as [|x items IH]; intros k group Hk Hinv.
  - cbn [grouper_from]. destruct group as [|slot group].
    + exists 0%nat. split; [lia|done].
    + exists k. split; [cbn [length] in Hinv; lia|].
      cbn [concat fmap list_fmap]. by rewrite app_nil_r.
  - cbn [grouper_from]. destruct k as [|[|k]]; [lia| |].
    + destruct (IH n [] ltac:(lia) ltac:(cbn [length]; lia)) as (pad & Hpad & Heq).
      exists pad. split; [done|].
      cbn [concat]. rewrite Heq, reverse_cons, reverse_nil.
      rewrite fmap_cons. cbn [app]. by rewrite <- !app_assoc.
    + destruct (IH (S k) (Some x :: group) ltac:(lia) ltac:(cbn [length] in *; lia))
        as (pad & Hpad & Heq).
      exists pad. split; [done|].
      rewrite Heq, reverse_cons, fmap_cons. by rewrite <- !app_assoc.
Qed.

Lemma omap_id_some (l : list A) : omap id (Some <$> l) = l.
Proof. induction l as [|x l IH]; [done|]. cbn. by rewrite IH. Qed.

Lemma omap_id_none (n : nat) : omap id (replicate n (@None A)) = [].
Proof. induction n as [|n IH]; [done|]. exact IH. Qed.

End groups.

Lemma length_concat_uniform {A : Type} (n : nat) (groups : list (list A)) :
  Forall (λ g, length g = n) groups →
  length (concat groups) = (length groups * n)%nat.
Proof.
  induction 1 as [|g groups Hg _ IH]; [done|].
  cbn [concat length]. rewrite List.length_app, IH, Hg. lia.
Qed.

(** ** More about lines *)

Section more_lines.

Import PyStr.

Lemma no_linebreak_app (s t : string) :
  no_linebreak (s +:+ t) = no_linebreak s && no_linebreak t.
Proof.
  induction s as [|c s IH]; [done|].
  rewrite app_cons. cbn [no_linebreak]. rewrite IH. by rewrite andb_assoc.
Qed.

Lemma universal_newlines_cons (c : ascii) (s : string) :
  universal_newlines (String c s)
  = if bool_decide (c = CR) then
      match s with
      | String c' s' =>
          if bool_decide (c' = LF) then String LF (universal_newlines s')
          else String LF (universal_newlines s)
      | EmptyString => String LF EmptyString
      end
    else String c (universal_newlines s).
Proof. by destruct s. Qed.

(** Reading in text mode leaves no carriage return. *)
Lemma universal_newlines_free_of_cr (s : string) :
  free_of CR (universal_newlines s) = true.
Proof.
  assert (H : free_of CR (universal_newlines s) = true
              ∧ ∀ c, free_of CR (universal_newlines (String c s)) = true);
    [|by destruct H].
  induction s as [|c' s [IH1 IH2]].
  - split; [done|]. intros c. rewrite universal_newlines_cons.
    destruct (bool_decide (c = CR)) eqn:Hc; [done|].
    cbn [universal_newlines free_of]. by rewrite Hc.
  - split; [apply IH2|]. intros c. rewrite universal_newlines_cons.
    destruct (bool_decide (c = CR)) eqn:Hc.
    + destruct (bool_decide (c' = LF)).
      * cbn [free_of]. by rewrite IH1.
      * cbn [free_of]. by rewrite (IH2 c').
    + cbn [free_of]. rewrite Hc, (IH2 c'). done.
Qed.

(** A line is a text without line break, followed by a line feed or not. *)
Lemma lines_keepends_shape (t : string) :
  free_of CR t = true →
  Forall (λ l, ∃ body, no_linebreak body = true
                       ∧ (l = body ∨ l = body +:+ newline))
         (lines_keepends t).
Proof.
  induction t as [|c t IH]; [constructor|].
  cbn [free_of]. intros [Hc Ht]%andb_true_iff.
  apply negb_true_iff in Hc. specialize (IH Ht).
  cbn [lines_keepends]. destruct (bool_decide (c = LF)) eqn:Hlf.
  - constructor; [|done]. exists ""%string. split; [done|]. right.
    apply bool_decide_eq_true in Hlf. by subst c.
  - destruct (lines_keepends t) as [|l ls].
    + repeat constructor. exists (String c ""). split; [|by left].
      cbn [no_linebreak]. by rewrite Hc, Hlf.
    + apply Forall_cons in IH as [(body & Hbody & Hl) IH].
      constructor; [|done]. exists (String c body). split.
      * cbn [no_linebreak]. by rewrite Hc, Hlf, Hbody.
      * destruct Hl as [-> | ->]; [by left | by right].
Qed.

Lemma strip_clean (body : string) :
  no_linebreak body = true → clean_field (strip body).
Proof.
  intros Hbody.
  destruct (strip_spec body) as (before & after & Heq & _ & _ & Hstart & Hend).
  split; [|done]. rewrite Heq, !no_linebreak_app in Hbody.
  apply andb_true_iff in Hbody as [_ Hbody].
  by apply andb_true_iff in Hbody as [Hbody _].
Qed.

Lemma strip_line_clean (l : string) :
  (∃ body, no_linebreak body = true ∧ (l = body ∨ l = body +:+ newline)) →
  clean_field (strip l).
Proof.
  intros (body & Hbody & [-> | ->]); rewrite ?strip_line; by apply strip_clean.
Qed.

Lemma universal_newlines_file_of_lines (lines : list string) :
  Forall (λ l, no_linebreak l = true) lines →
  universal_newlines (file_of_lines lines) = file_of_lines lines.
Proof.
  induction 1 as [|l lines Hl _ IH]; [done|].
  cbn [file_of_lines].
  rewrite universal_newlines_plain_app by done.
  rewrite universal_newlines_line_end; [by rewrite IH | by left | done].
Qed.

Lemma readlines_file_of_lines (lines : list string) :
  Forall (λ l, no_linebreak l = true) lines →
  readlines (file_of_lines lines) = (λ l, l +:+ newline) <$> lines.
Proof.
  intros Hlines. unfold readlines.
  rewrite universal_newlines_file_of_lines by done.
  induction Hlines as [|l lines Hl _ IH]; [done|].
  cbn [file_of_lines]. rewrite lines_keepends_line by done.
  by rewrite IH.
Qed.

End more_lines.

(** ** More about the scraper *)

Section scraper.

Lemma dict_of_pairs_union (pairs : list (string * string)) (acc : gmap string string) :
  dict_of_pairs pairs ∪ acc = foldl (λ m kv, <[kv.1 := kv.2]> m) acc pairs.
Proof.
  unfold dict_of_pairs. induction pairs as [|kv pairs IH] using rev_ind.
  - cbn. apply (left_id_L ∅ (∪)).
  - rewrite !foldl_snoc, <- IH. by rewrite insert_union_l.
Qed.

Lemma dict_of_pairs_lookup (pairs : list (string * string)) (label : string) :
  dict_of_pairs pairs !! label = last_value label pairs.
Proof.
  unfold dict_of_pairs, last_value.
  induction pairs as [|[k v] pairs IH] using rev_ind; [done|].
  rewrite foldl_snoc, filter_app, filter_cons, filter_nil. cbn [fst snd].
  destruct (decide (k = label)) as [<- | Hne].
  - by rewrite lookup_insert_eq, last_snoc.
  - by rewrite lookup_insert_ne, app_nil_r.
Qed.

Lemma pairs_in_cons (table : element) (tables : list element) :
  pairs_in (table :: tables) = pairs_of (cells_of table) ++ pairs_in tables.
Proof. reflexivity. Qed.

(** The tables of one block: they are read in order, and the first table
    with an odd number of cells stops the reading. *)
Lemma scan_tables_even (tables : list element) :
  Forall (λ t, even_cells t = true) tables →
  ∀ acc : gmap string string,
    scan_tables tables acc
    = Ok (foldl (λ m kv, <[kv.1 := kv.2]> m) acc (pairs_in tables)).
Proof.
  induction 1 as [|t tables Heven _ IH]; intros acc; [done|].
  rewrite pairs_in_cons, foldl_app.
  cbn [scan_tables]. fold (cells_of t). rewrite pair_cells_parity.
  unfold even_cells in Heven. rewrite Heven. cbn.
  by rewrite IH, dict_of_pairs_union.
Qed.

Lemma scan_tables_odd (tables : list element) :
  Exists (λ t, even_cells t = false) tables →
  ∀ acc : gmap string string, scan_tables tables acc = Raise AttributeError.
Proof.
  induction tables as [|t tables IH]; intros Hodd acc.
  - by apply Exists_nil in Hodd.
  - cbn [scan_tables]. fold (cells_of t). rewrite pair_cells_parity.
    fold (even_cells t). destruct (even_cells t) eqn:Heven; [|done].
    cbn. apply IH. apply Exists_cons in Hodd as [Hodd | Hodd]; [congruence|done].
Qed.

Lemma tables_dec (tables : list element) :
  Forall (λ t, even_cells t = true) tables
  ∨ Exists (λ t, even_cells t = false) tables.
Proof.
  induction tables as [|t tables [IH | IH]].
  - left. constructor.
  - destruct (even_cells t) eqn:Heven.
    + left. by constructor.
    + right. by constructor.
  - right. by constructor 2.
Qed.

Lemma tables_of_blocks_cons (block : element) (blocks : list element) :
  tables_of_blocks (block :: blocks)
  = (if has_title block then find_elements_by_tag_name block "table" else [])
    ++ tables_of_blocks blocks.
Proof.
  unfold tables_of_blocks. rewrite filter_cons.
  destruct (has_title block); [|done].
  by rewrite decide_True by done.
Qed.

Lemma pairs_in_app (ts1 ts2 : list element) :
  pairs_in (ts1 ++ ts2) = pairs_in ts1 ++ pairs_in ts2.
Proof. unfold pairs_in. apply bind_app. Qed.

Lemma scan_blockquotes_even (blocks : list element) :
  Forall (λ t, even_cells t = true) (tables_of_blocks blocks) →
  ∀ acc : gmap string string,
    scan_blockquotes blocks acc
    = Ok (foldl (λ m kv, <[kv.1 := kv.2]> m) acc (pairs_in (tables_of_blocks blocks))).
Proof.
  induction blocks as [|block blocks IH]; intros Heven acc; [done|].
  rewrite tables_of_blocks_cons in Heven |- *.
  apply Forall_app in Heven as [Hblock Hrest].
  cbn [scan_blockquotes]. unfold has_title in *.
  destruct (find_elements_by_class_name block "Title") as [|title titles].
  - by apply IH.
  - rewrite scan_tables_even by done. cbn.
    rewrite IH by done. by rewrite pairs_in_app, foldl_app.
Qed.

Lemma scan_blockquotes_odd (blocks : list element) :
  Exists (λ t, even_cells t = false) (tables_of_blocks blocks) →
  ∀ acc : gmap string string, scan_blockquotes blocks acc = Raise AttributeError.
Proof.
  induction blocks as [|block blocks IH]; intros Hodd acc.
  - by apply Exists_nil in Hodd.
  - rewrite tables_of_blocks_cons in Hodd.
    cbn [scan_blockquotes]. unfold has_title in *.
    destruct (find_elements_by_class_name block "Title") as [|title titles].
    + by apply IH.
    + apply Exists_app in Hodd as [Hodd | Hodd].
      * by rewrite scan_tables_odd.
      * destruct (tables_dec (find_elements_by_tag_name block "table"))
          as [Heven | Hodd'].
        -- rewrite scan_tables_even by done. cbn. by apply IH.
        -- by rewrite scan_tables_odd.
Qed.

Lemma get_balance_data_even (d : driver) :
  Forall (λ t, even_cells t = true) (scanned_tables d) →
  get_balance_data d = Ok (dict_of_pairs (pairs_in (scanned_tables d))).
Proof.
  intros Heven. unfold get_balance_data, scanned_tables in *.
  rewrite scan_blockquotes_even by done. reflexivity.
Qed.

Lemma get_balance_data_odd (d : driver) :
  Exists (λ t, even_cells t = false) (scanned_tables d) →
  get_balance_data d = Raise AttributeError.
Proof.
  intros Hodd. unfold get_balance_data, scanned_tables in *.
  by rewrite scan_blockquotes_odd.
Qed.

End scraper.

(** ** More about the loops of the navigator *)

Section navigator.

Lemma first_element_elem (found : list element) (e : element) :
  first_element found = Ok e → e ∈ found.
Proof. destruct found as [|x found]; [done|]. intros [= ->]. by left. Qed.

Lemma find_element_by_id_inside (tag : element) (name : string) (e : element) :
  find_element_by_id tag name = Ok e →
  attr_id e = Some name ∧ e ∈ descendants tag.
Proof.
  intros He%first_element_elem. unfold find_elements_by_id in He.
  by apply list_elem_of_filter in He.
Qed.

Lemma search_tabs_Ok (tags : list element) (e : element) :
  search_tabs tags = Ok e →
  ∃ (pre post : list element) (tag : element),
    tags = pre ++ tag :: post
    ∧ find_element_by_id tag "tab" = Ok e
    ∧ text e = "Self-Service"%string.
Proof.
  induction tags as [|t tags IH]; [done|].
  cbn [search_tabs].
  destruct (find_element_by_id t "tab") as [e'|ex] eqn:Ht; [|done]. cbn.
  destruct (bool_decide (text e' = "Self-Service"%string)) eqn:Htext.
  - intros [= ->]. apply bool_decide_eq_true in Htext.
    by exists [], tags, t.
  - intros (pre & post & tag & -> & Htag & He)%IH.
    by exists (t :: pre), post, tag.
Qed.

Lemma search_tabs_broken (pre post : list element) (tag : element) :
  Forall (λ t, ∃ e', find_element_by_id t "tab" = Ok e'
                     ∧ text e' ≠ "Self-Service"%string) pre →
  find_elements_by_id tag "tab" = [] →
  search_tabs (pre ++ tag :: post) = Raise NoSuchElementException.
Proof.
  intros Hpre Htag. induction Hpre as [|t pre (e' & He' & Hne) _ IH].
  - cbn [app search_tabs]. unfold find_element_by_id. by rewrite Htag.
  - cbn [app search_tabs]. rewrite He'. cbn.
    by rewrite bool_decide_eq_false_2.
Qed.

Lemma first_link_Some (links : list element) (name : string) (link : element) :
  first_link links name = Some link →
  ∃ pre post : list element,
    links = pre ++ link :: post
    ∧ Forall (λ l, PyStr.lower (text l) ≠ name) pre
    ∧ PyStr.lower (text link) = name.
Proof.
  induction links as [|l links IH]; [done|]. cbn [first_link].
  destruct (bool_decide (PyStr.lower (text l) = name)) eqn:Hl.
  - intros [= ->]. apply bool_decide_eq_true in Hl. by exists [], links.
  - apply bool_decide_eq_false in Hl.
    intros (pre & post & -> & Hpre & Hlink)%IH.
    exists (l :: pre), post. split; [done|]. split; [by constructor|done].
Qed.


End navigator.

(** ** Ordered dictionaries and the mapping they stand for *)

Section ordered.

Context {V : Type}.

Lemma od_insert_to_map (k : list wchar) (v : V) (items : list (list wchar * V)) :
  list_to_map (od_insert k v items) =@{gmap (list wchar) V} <[k:=v]> (list_to_map items).
Proof.
  induction items as [|[k' v'] items IH]; [done|].
  cbn [od_insert]. destruct (decide (k' = k)) as [-> | Hne].
  - rewrite !list_to_map_cons. by rewrite insert_insert_eq.
  - rewrite !list_to_map_cons, IH. by apply insert_insert_ne.
Qed.

Lemma od_insert_keys (k : list wchar) (v : V) (items : list (list wchar * V)) :
  (od_insert k v items).*1
  = if decide (k ∈ items.*1) then items.*1 else items.*1 ++ [k].
Proof.
  induction items as [|[k' v'] items IH].
  - cbn. rewrite decide_False; [done|]. apply not_elem_of_nil.
  - cbn [od_insert]. destruct (decide (k' = k)) as [-> | Hne].
    + rewrite !fmap_cons. cbn [fst]. rewrite decide_True; [done|]. by left.
    + rewrite !fmap_cons, IH. cbn [fst].
      destruct (decide (k ∈ items.*1)) as [Hin | Hnin].
      * rewrite decide_True; [done|]. by right.
      * rewrite decide_False; [done|].
        intros [Heq | Hin]%elem_of_cons; [by subst | done].
Qed.

Lemma od_insert_NoDup (k : list wchar) (v : V) (items : list (list wchar * V)) :
  NoDup items.*1 → NoDup (od_insert k v items).*1.
Proof.
  intros Hnd. rewrite od_insert_keys.
  destruct (decide (k ∈ items.*1)) as [Hin | Hnin]; [done|].
  apply NoDup_app. split; [done|]. split; [|apply NoDup_singleton].
  intros x Hx ->%list_elem_of_singleton. done.
Qed.

Lemma od_insert_elem_keys (k k' : list wchar) (v : V) (items : list (list wchar * V)) :
  k' ∈ (od_insert k v items).*1 ↔ k' = k ∨ k' ∈ items.*1.
Proof.
  rewrite od_insert_keys. destruct (decide (k ∈ items.*1)) as [Hin | Hnin].
  - split; [by right | by intros [-> | ?]].
  - rewrite elem_of_app, list_elem_of_singleton.
    split; [intros [? | ->]; [by right | by left]
           | intros [-> | ?]; [by right | by left]].
Qed.

(** Inserting the pairs of a list in which no key occurs twice. *)
Lemma foldl_insert_union (pairs : list (list wchar * V)) :
  NoDup pairs.*1 →
  ∀ m : gmap (list wchar) V,
    foldl (λ m kv, <[kv.1 := kv.2]> m) m pairs = list_to_map pairs ∪ m.
Proof.
  induction pairs as [|[k v] pairs IH]; intros Hnd m.
  - cbn. by rewrite (left_id_L ∅ (∪)).
  - rewrite fmap_cons in Hnd. apply NoDup_cons in Hnd as [Hk Hnd].
    cbn [foldl fst snd]. rewrite IH by done.
    rewrite list_to_map_cons, <- insert_union_l.
    rewrite insert_union_r; [done|]. by apply not_elem_of_list_to_map_1.
Qed.

End ordered.

Section section_items.

Lemma items_by_spec (key : element → list wchar) (elements : list element) :
  ∀ acc : list (list wchar * element),
    NoDup acc.*1 →
    NoDup (foldl (λ items e, od_insert (key e) e items) acc elements).*1
    ∧ list_to_map (foldl (λ items e, od_insert (key e) e items) acc elements)
      =@{gmap (list wchar) element}
      foldl (λ m e, <[key e := e]> m) (list_to_map acc) elements.
Proof.
  induction elements as [|e elements IH]; intros acc Hnd; [done|].
  cbn [foldl].
  destruct (IH (od_insert (key e) e acc) (od_insert_NoDup _ _ _ Hnd)) as [Hnd' Hmap].
  split; [done|]. by rewrite Hmap, od_insert_to_map.
Qed.

Lemma items_by_NoDup (key : element → list wchar) (elements : list element) :
  NoDup (items_by key elements).*1.
Proof. apply (items_by_spec key elements []). constructor. Qed.

Lemma items_by_to_map (key : element → list wchar) (elements : list element) :
  list_to_map (items_by key elements) = dict_by key elements.
Proof. apply (items_by_spec key elements []). constructor. Qed.

Lemma items_join_spec (sections2 : list (list wchar * element)) :
  ∀ sections1 : list (list wchar * element),
    NoDup sections1.*1 →
    NoDup (items_join sections1 sections2).*1
    ∧ list_to_map (items_join sections1 sections2)
      =@{gmap (list wchar) element}
      foldl (λ m kv, <[kv.1 := kv.2]> m) (list_to_map sections1) sections2.
Proof.
  unfold items_join.
  induction sections2 as [|[k v] sections2 IH]; intros sections1 Hnd; [done|].
  cbn [foldl fst snd].
  destruct (IH (od_insert k v sections1) (od_insert_NoDup _ _ _ Hnd)) as [Hnd' Hmap].
  split; [done|]. by rewrite Hmap, od_insert_to_map.
Qed.

Lemma items_join_to_map (sections1 sections2 : list (list wchar * element)) :
  NoDup sections1.*1 → NoDup sections2.*1 →
  list_to_map (items_join sections1 sections2)
  = dict_join (list_to_map sections1) (list_to_map sections2).
Proof.
  intros Hnd1 Hnd2. destruct (items_join_spec sections2 sections1 Hnd1) as [_ ->].
  unfold dict_join. by apply foldl_insert_union.
Qed.

(** The items are the items of the mapping that [get_self_service_sections]
    returns, each key once. *)
Lemma get_self_service_sections_items_Ok (d : driver) (items : list (list wchar * element)) :
  get_self_service_sections_items d = Ok items →
  NoDup items.*1 ∧ get_self_service_sections d = Ok (list_to_map items).
Proof.
  unfold get_self_service_sections_items, get_self_service_sections.
  destruct (find_element_by_class_name d background) as [page_table|ex]; [|done].
  cbn.
  destruct (find_element_by_class_name page_table background) as [page_tr|ex];
    [|done].
  cbn. intros [= <-]. split.
  - apply items_join_spec, items_by_NoDup.
  - f_equal. rewrite items_join_to_map by apply items_by_NoDup.
    by rewrite !items_by_to_map.
Qed.

Lemma get_self_service_sections_Ok (d : driver) (sections : gmap (list wchar) element) :
  get_self_service_sections d = Ok sections →
  ∃ items : list (list wchar * element),
    get_self_service_sections_items d = Ok items
    ∧ NoDup items.*1 ∧ sections = list_to_map items.
Proof.
  intros Hsections.
  destruct (get_self_service_sections_items d) as [items|ex] eqn:Hitems.
  - destruct (get_self_service_sections_items_Ok d items Hitems) as [Hnd Heq].
    rewrite Heq in Hsections. injection Hsections as <-. by exists items.
  - exfalso. revert Hitems Hsections.
    unfold get_self_service_sections_items, get_self_service_sections.
    destruct (find_element_by_class_name d background) as [page_table|ex'];
      [|done].
    cbn.
    by destruct (find_element_by_class_name page_table background).
Qed.




End section_items.
(** ** Where the entries of the merged mapping come from *)

Section last_elements.

Context (P : element → Prop) `{∀ e, Decision (P e)}.



End last_elements.


Lemma last_with_elem (P : element → Prop) (l : list element) (e : element) :
  last_with P l e → e ∈ l ∧ P e.
Proof.
  intros (pre & post & -> & He & _). split; [|done].
  apply elem_of_app. right. by left.
Qed.

Section origin.

Variables family1 family2 : list element.







End origin.

Section lookup_order.

Context {V : Type} (P : list wchar → Prop).




End lookup_order.

Section lookup_order_elements.

Context (P : list wchar → Prop).






End lookup_order_elements.

(** ** The section lookup on a page *)

Section lookup_on_page.

Variables (d : driver) (page_table page_tr : element).

Hypothesis Htable : find_element_by_class_name d background = Ok page_table.
Hypothesis Htr : find_element_by_class_name page_table background = Ok page_tr.



End lookup_on_page.

Lemma section_items_page (d : driver) (items : list (list wchar * element)) :
  get_self_service_sections_items d = Ok items →
  ∃ page_table page_tr : element,
    find_element_by_class_name d background = Ok page_table
    ∧ find_element_by_class_name page_table background = Ok page_tr.
Proof.
  unfold get_self_service_sections_items.
  destruct (find_element_by_class_name d background) as [page_table|ex]; [|done].
  cbn.
  destruct (find_element_by_class_name page_table background) as [page_tr|ex]
    eqn:Htr; [|done].
  intros _. by exists page_table, page_tr.
Qed.

(** ** Running pieces of the script *)

Lemma run_bind {A B : Type} (m : script A) (k : A → script B) (h : list command) :
  (m ≫= k) h
  = match m h with
    | (h', Returned a) => k a h'
    | (h', Raised e) => (h', Raised e)
    | (h', RaisedTypeError) => (h', RaisedTypeError)
    end.
Proof. reflexivity. Qed.

Lemma run_perform (b : browser) (c : command) (h : list command) :
  perform b c h
  = match respond b (h ++ [c]) with
    | Ok (page_title, doc) =>
        (h ++ [c], Returned (Driver page_title doc (clicks (h ++ [c]))))
    | Raise e => (h ++ [c], Raised e)
    end.
Proof. reflexivity. Qed.

Lemma run_lift {A : Type} (r : result A) (h : list command) :
  lift r h = match r with Ok a => (h, Returned a) | Raise e => (h, Raised e) end.
Proof. reflexivity. Qed.

(** One step of a run that is known by its end: the answer of the browser,
    or the result of a query, is told apart. *)
Ltac script_step H :=
  rewrite ?run_bind in H;
  first
    [ rewrite run_perform in H;
      match type of H with
      | context [respond ?b ?h] =>
          let R := fresh "Hrespond" in
          destruct (respond b h) as [[? ?]|?] eqn:R
      end
    | rewrite run_lift in H;
      match type of H with
      | context [match ?r with Ok _ => _ | Raise _ => _ end] =>
          let R := fresh "Hquery" in
          destruct r as [?|?] eqn:R
      end ];
  cbn [app] in *.

Section queries_facts.

Context {T : Type} `{SearchContext T}.

Lemma first_element_Raise (found : list element) (ex : exn) :
  first_element found = Raise ex → ex = NoSuchElementException ∧ found = [].
Proof. destruct found; [by intros [= <-]|done]. Qed.

Lemma find_element_by_id_Ok (ctx : T) (name : string) (e : element) :
  find_element_by_id ctx name = Ok e → attr_id e = Some name ∧ e ∈ scope ctx.
Proof.
  intros He%first_element_elem. unfold find_elements_by_id in He.
  by apply list_elem_of_filter in He.
Qed.

Lemma find_element_by_tag_name_Ok (ctx : T) (name : string) (e : element) :
  find_element_by_tag_name ctx name = Ok e → tag_name e = name ∧ e ∈ scope ctx.
Proof.
  intros He%first_element_elem. unfold find_elements_by_tag_name in He.
  by apply list_elem_of_filter in He.
Qed.

Lemma find_element_by_class_name_Ok (ctx : T) (name : string) (e : element) :
  find_element_by_class_name ctx name = Ok e →
  name ∈ class_names e ∧ e ∈ scope ctx.
Proof.
  intros He%first_element_elem. unfold find_elements_by_class_name in He.
  by apply list_elem_of_filter in He.
Qed.

Lemma first_element_filter (P : element → Prop) `{∀ e, Decision (P e)}
    (l : list element) (e : element) :
  first_element (filter P l) = Ok e → first_with P l e.
Proof.
  unfold first_with. induction l as [|x l IH]; [done|].
  rewrite filter_cons. destruct (decide (P x)) as [Hx | Hx].
  - intros [= ->]. by exists [], l.
  - intros (pre & post & -> & He & Hpre)%IH.
    exists (x :: pre), post. split; [done|]. split; [done|]. by constructor.
Qed.

End queries_facts.

(** What the queries of [login] found is what it may send to. *)
Ltac commands_ok :=
  repeat match goal with
    | H : find_element_by_id _ _ = Ok _ |- _ =>
        apply find_element_by_id_Ok in H as [? _]
    | H : find_element_by_tag_name _ _ = Ok _ |- _ =>
        apply find_element_by_tag_name_Ok in H as [? _]
    end;
  repeat (apply Forall_cons_2;
          [cbn [login_command]; first [done | by left | by right]|]);
  apply Forall_nil_2.

Ltac prefix_ok := first [reflexivity | apply prefix_app_r; prefix_ok].

(** ** The runs of the login *)

Section login_runs.

Variables (b : browser) (username password : string).

(** A login that returns has sent its five commands. *)
Lemma login_Returned (h : list command) (d : driver) :
  login b username password [] = (h, Returned d) →
  ∃ (user_form pass_form button_class button : element)
    (first_page typed_page : string * element),
    h = [Launch; Get LOGIN_PAGE; SendKeys user_form username;
         SendKeys pass_form password; Click button]
    ∧ respond b [Launch; Get LOGIN_PAGE] = Ok first_page
    ∧ first_with (λ e, attr_id e = Some "user"%string)
                 (first_page.2 :: descendants first_page.2) user_form
    ∧ first_with (λ e, attr_id e = Some "pass"%string)
                 (first_page.2 :: descendants first_page.2) pass_form
    ∧ respond b [Launch; Get LOGIN_PAGE; SendKeys user_form username;
                 SendKeys pass_form password] = Ok typed_page
    ∧ first_with (λ e, "buttons"%string ∈ class_names e)
                 (typed_page.2 :: descendants typed_page.2) button_class
    ∧ first_with (λ e, tag_name e = "input"%string)
                 (descendants button_class) button
    ∧ respond b h = Ok (title d, document d)
    ∧ clicked d = [button].
Proof.
  intros H. unfold login in H.
  do 9 (script_step H; [|done]).
  injection H as <- <-.
  apply first_element_filter in Hquery, Hquery0, Hquery1, Hquery2.
  eexists _, _, _, _, (_, _), (_, _).
  split; [reflexivity|]. split; [eassumption|].
  split; [exact Hquery|]. split; [exact Hquery0|].
  split; [eassumption|].
  split; [exact Hquery1|]. split; [exact Hquery2|]. by split.
Qed.

Lemma login_starts_with_launch (h h' : list command) (r : outcome driver) :
  login b username password h = (h', r) → (h ++ [Launch]) `prefix_of` h'.
Proof.
  intros H. unfold login in H.
  do 8 (script_step H; [|injection H as <- _; prefix_ok]).
  script_step H; injection H as <- _; prefix_ok.
Qed.

End login_runs.

(** ** Pieces of the script that take back no command *)

Section history.

Lemma keeps_history_perform (b : browser) (c : command) : keeps_history (perform b c).
Proof.
  intros h h' r. rewrite run_perform.
  destruct (respond b (h ++ [c])) as [[t doc]|e]; intros [= <- _];
    by apply prefix_app_r.
Qed.

Lemma keeps_history_lift {A : Type} (r : result A) : keeps_history (lift r).
Proof. intros h h' r'. rewrite run_lift. by destruct r; intros [= <- _]. Qed.

Lemma keeps_history_ret {A : Type} (a : A) : keeps_history (mret a : script A).
Proof. by intros h h' r [= <- _]. Qed.

Lemma keeps_history_raise {A : Type} (e : exn) : keeps_history (raise e : script A).
Proof. by intros h h' r [= <- _]. Qed.

Lemma keeps_history_raise_type_error {A : Type} :
  keeps_history (raise_type_error : script A).
Proof. by intros h h' r [= <- _]. Qed.

Lemma keeps_history_bind {A B : Type} (m : script A) (k : A → script B) :
  keeps_history m → (∀ a, keeps_history (k a)) → keeps_history (m ≫= k).
Proof.
  intros Hm Hk h h' r. rewrite run_bind.
  destruct (m h) as [h1 [a|e|]] eqn:Hrun.
  - intros Hka. etrans; [by eapply Hm | by eapply Hk].
  - intros [= <- _]. by eapply Hm.
  - intros [= <- _]. by eapply Hm.
Qed.

Lemma keeps_history_enter_self_service (b : browser) (d : driver) :
  keeps_history (enter_self_service b d).
Proof.
  apply keeps_history_bind; [apply keeps_history_lift|].
  intros d'. destruct (last (clicked d'));
    [apply keeps_history_perform | apply keeps_history_ret].
Qed.

(** What follows the login in [main]. *)
Lemma keeps_history_after_login (b : browser) (d : driver) :
  keeps_history
    (d ← enter_self_service b d;
     found ← lift (find_link d balances_link_name);
     match found with
     | None => raise AttributeError
     | Some link =>
         match href b link with
         | None => raise_type_error
         | Some link_url =>
             url ← lift (correct_link link_url);
             d ← perform b (Get url);
             value ← lift (get_dining_dollars d);
             mret (printed value)
         end
     end).
Proof.
  apply keeps_history_bind; [apply keeps_history_enter_self_service|].
  intros d2. apply keeps_history_bind; [apply keeps_history_lift|].
  intros [link|]; [|apply keeps_history_raise].
  destruct (href b link); [|apply keeps_history_raise_type_error].
  apply keeps_history_bind; [apply keeps_history_lift|]. intros url.
  apply keeps_history_bind; [apply keeps_history_perform|]. intros d3.
  apply keeps_history_bind; [apply keeps_history_lift|]. intros value.
  apply keeps_history_ret.
Qed.

End history.

(** ** The runs of the navigation and of the script *)

Section main_runs.

Lemma get_self_service_page_Ok (d d' : driver) :
  get_self_service_page d = Ok d' →
  ∃ e : element, d' = click e d ∧ text e = "Self-Service"%string.
Proof.
  unfold get_self_service_page.
  destruct (find_element_by_id d "tabs_tda") as [tabs|ex]; [|done]. cbn.
  destruct (search_tabs (find_elements_by_class_name tabs "taboff"))
    as [e|ex] eqn:Hsearch; [|done]. cbn.
  intros [= <-].
  apply search_tabs_Ok in Hsearch as (_ & _ & _ & _ & _ & Htext).
  by exists e.
Qed.

Lemma enter_self_service_Returned (b : browser) (d d' : driver)
    (h h' : list command) :
  enter_self_service b d h = (h', Returned d') →
  ∃ tab : element,
    get_self_service_page d = Ok (click tab d)
    ∧ text tab = "Self-Service"%string
    ∧ h' = h ++ [Click tab]
    ∧ respond b h' = Ok (title d', document d').
Proof.
  intros H. unfold enter_self_service in H.
  script_step H; [|done].
  destruct (get_self_service_page_Ok _ _ Hquery) as (tab & -> & Htext).
  cbn [click clicked] in H. rewrite last_snoc in H.
  rewrite run_perform in H.
  destruct (respond b (h ++ [Click tab])) as [[t doc]|ex] eqn:Hrespond; [|done].
  injection H as <- <-. by exists tab.
Qed.

End main_runs.

Lemma find_link_Some (d : driver) (name : string) (link : element) :
  find_link d name = Ok (Some link) →
  tag_name link = "a"%string
  ∧ link ∈ document d :: descendants (document d)
  ∧ caseless_eq (text link) name.
Proof.
  unfold find_link.
  intros [= (pre & post & Hlinks & _ & Hlink)%first_link_Some].
  assert (Hin : link ∈ find_elements_by_tag_name d "a")
    by (rewrite Hlinks; apply elem_of_app; right; by left).
  apply list_elem_of_filter in Hin as [Htag Hin].
  split; [done|]. split; [done|]. by apply caseless_eq_lower.
Qed.

(** ** The claims about the link corrector *)

(** C3: on a wrapped link that contains an absolute URL, [correct_link]
    returns what stands between the first opening and the last closing
    parenthesis without its first and its last character; the wrapped
    example link yields its URL. *)
Theorem correct_link_extracts_payload :
  (∀ s pre payload post : string,
     wraps s pre payload post →
     PyStr.contains marker s = true →
     has_url s = true →
     correct_link s = Ok (trim_one payload))
  ∧ correct_link "javascript:OpenWinNEU('http://example.com/page')"
    = Ok "http://example.com/page"%string.
Proof.
  split; [|reflexivity].
  intros s pre payload post Hwraps Hmarker Hurl.
  rewrite correct_link_slice by done.
  rewrite (find_open_paren s pre payload post Hwraps).
  rewrite (rfind_close_paren s pre payload post Hwraps).
  destruct Hwraps as (-> & _ & _). f_equal.
  apply (slice_between "(" ")").
Qed.

Lemma correct_link_extracts_payload_witness :
  correct_link "x(javascript:OpenWinNEU('https://a.b/c?d=(e)')y"
  = Ok "avascript:OpenWinNEU('https://a.b/c?d=(e)"%string.
Proof.
  apply (proj1 correct_link_extracts_payload
           "x(javascript:OpenWinNEU('https://a.b/c?d=(e)')y"%string
           "x"%string
           "javascript:OpenWinNEU('https://a.b/c?d=(e)'"%string
           "y"%string).
  - repeat split; reflexivity.
  - reflexivity.
  - reflexivity.
Defined.

(** C4, as the claim has it, fails: the test for the script marker looks at
    the whole link and not at its start, so a plain URL that holds the
    marker further on is cut like a wrapped link, and without parentheses
    in it loses its first and its last two characters. *)
Lemma correct_link_plain_url_with_marker_inside :
  ¬ (∀ s : string,
       PyStr.startswith "http://" s = true
       ∨ PyStr.startswith "https://" s = true →
       PyStr.startswith marker s = false →
       correct_link s = Ok s).
Proof.
  intros Hclaim.
  specialize (Hclaim "http://example.com/?next=javascript:OpenWinNEU"%string).
  assert (Hcut : correct_link "http://example.com/?next=javascript:OpenWinNEU"
                 = Ok "ttp://example.com/?next=javascript:OpenWinN"%string)
    by reflexivity.
  rewrite Hcut in Hclaim.
  assert (Hsame : Ok "ttp://example.com/?next=javascript:OpenWinN"%string
                  = Ok "http://example.com/?next=javascript:OpenWinNEU"%string).
  { apply Hclaim; [left|]; reflexivity. }
  discriminate Hsame.
Qed.

(** C4, amended: [correct_link] returns as it is a link in which the script
    marker occurs nowhere. *)
Theorem correct_link_plain_identity (s : string) :
  PyStr.contains marker s = false → correct_link s = Ok s.
Proof. apply correct_link_plain. Qed.

Lemma correct_link_plain_identity_witness :
  correct_link "http://example.com/page" = Ok "http://example.com/page"%string.
Proof. apply correct_link_plain_identity. reflexivity. Defined.

(** C5, as the claim has it, fails: the test for an absolute URL looks at the
    whole link, so a link whose payload has no URL but whose remainder has
    one is not refused. *)
Lemma correct_link_payload_without_url_not_refused :
  ¬ (∀ s pre payload post : string,
       wraps s pre payload post →
       PyStr.contains marker s = true →
       has_url payload = false →
       ∃ e, correct_link s = Raise e).
Proof.
  intros Hclaim.
  destruct (Hclaim "javascript:OpenWinNEU('notaurl')#http://"%string
                   "javascript:OpenWinNEU"%string
                   "'notaurl'"%string
                   "#http://"%string) as [e He].
  - repeat split; reflexivity.
  - reflexivity.
  - reflexivity.
  - vm_compute in He. discriminate He.
Qed.

(** C5, amended: a link with the script marker that contains neither
    ["http://"] nor ["https://"] anywhere is refused with an explicit error;
    so is the example link. *)
Theorem correct_link_without_url_raises :
  (∀ s : string,
     PyStr.contains marker s = true →
     has_url s = false →
     correct_link s = Raise (WebDriverException no_url_msg))
  ∧ correct_link "javascript:OpenWinNEU('notaurl')"
    = Raise (WebDriverException no_url_msg).
Proof. split; [apply correct_link_no_url | reflexivity]. Qed.

Lemma correct_link_without_url_raises_witness :
  correct_link "javascript:OpenWinNEU(42)"
  = Raise (WebDriverException no_url_msg).
Proof.
  apply (proj1 correct_link_without_url_raises); reflexivity.
Defined.

(** C10, as the claim has it, fails: the URL taken out of a wrapped link may
    be a wrapped link itself. *)
Lemma correct_link_not_idempotent :
  ¬ (∀ s r : string, correct_link s = Ok r → correct_link r = Ok r).
Proof.
  intros Hclaim.
  specialize (Hclaim
    "javascript:OpenWinNEU('javascript:OpenWinNEU('http://x')')"%string
    "javascript:OpenWinNEU('http://x')"%string eq_refl).
  vm_compute in Hclaim. discriminate Hclaim.
Qed.

(** C10, amended: a result of [correct_link] is a fixed point of
    [correct_link] exactly when it does not contain the script marker. *)
Theorem correct_link_fixed_point (s r : string) :
  correct_link s = Ok r →
  (correct_link r = Ok r ↔ PyStr.contains marker r = false).
Proof.
  intros _. split; [|apply correct_link_plain].
  intros Hfix. destruct (PyStr.contains marker r) eqn:Hmarker; [|done].
  exfalso. destruct (has_url r) eqn:Hurl.
  - rewrite correct_link_slice in Hfix by done.
    injection Hfix as Hfix.
    assert (Hne : r ≠ ""%string) by (by apply (contains_nonempty marker)).
    pose proof (length_slice_lt r (PyStr.find r "(" + 2) (PyStr.rfind r ")" - 1)
                  Hne) as Hlt.
    rewrite Hfix in Hlt.
    assert (-1 ≤ PyStr.find r "(")
      by (unfold PyStr.find; destruct (PyStr.index_of "(" r); lia).
    lia.
  - rewrite correct_link_no_url in Hfix by done. discriminate Hfix.
Qed.

Lemma correct_link_fixed_point_witness :
  correct_link "http://example.com/page" = Ok "http://example.com/page"%string
  ↔ PyStr.contains marker "http://example.com/page" = false.
Proof.
  apply (correct_link_fixed_point
           "javascript:OpenWinNEU('http://example.com/page')").
  reflexivity.
Defined.
(** ** The claim about the credential loader *)



(** ** The claims about the page navigator *)

(** C1, as the claim has it, fails: the tab loop compares the text of a tab
    with "Self-Service" as it is written, so a tab that reads "self-service"
    is passed over. *)
Lemma get_self_service_page_case_counterexample :
  ¬ (∀ (d : driver) (tabs tag e : element) (pre post : list element),
       find_element_by_id d "tabs_tda" = Ok tabs →
       find_elements_by_class_name tabs "taboff" = pre ++ tag :: post →
       Forall (λ t, ∃ e', find_element_by_id t "tab" = Ok e'
                          ∧ ¬ caseless_eq (text e') "Self-Service") pre →
       find_element_by_id tag "tab" = Ok e →
       caseless_eq (text e) "Self-Service" →
       get_self_service_page d = Ok (click e d)).
Proof.
  intros Hclaim.
  specialize (Hclaim (tabs_page "self-service")
    (Element "table" (Some "tabs_tda"%string) [] ""
       [tab "tabon" "myNEU Central"; tab "taboff" "Community";
        tab "taboff" "self-service"])
    (tab "taboff" "self-service")
    (leaf "a" (Some "tab"%string) [] "self-service")
    [tab "taboff" "Community"] []).
  assert (Hraise : get_self_service_page (tabs_page "self-service")
                   = Raise (UnexpectedTagNameException no_tab_msg))
    by reflexivity.
  rewrite Hraise in Hclaim. discriminate Hclaim.
  - reflexivity.
  - reflexivity.
  - constructor; [|constructor].
    exists (leaf "a" (Some "tab"%string) [] "Community"). split; [reflexivity|].
    intros Heq%caseless_eq_lower. discriminate Heq.
  - reflexivity.
  - apply caseless_eq_lower. reflexivity.
Qed.

(** C1, amended: the navigator clicks the inner element of the first
    non-active tab whose inner element reads "Self-Service" letter for
    letter, provided the non-active tabs before it have an inner element;
    whatever it clicks reads "Self-Service" letter for letter; and when
    every non-active tab has an inner element and none of these reads so,
    it raises the error of the missing tab. *)
Theorem get_self_service_page_clicks_exact_match
    (d : driver) (tabs : element) :
  find_element_by_id d "tabs_tda" = Ok tabs →
  (∀ (tag e : element) (pre post : list element),
     find_elements_by_class_name tabs "taboff" = pre ++ tag :: post →
     Forall (λ t, ∃ e', find_element_by_id t "tab" = Ok e'
                        ∧ text e' ≠ "Self-Service"%string) pre →
     find_element_by_id tag "tab" = Ok e →
     text e = "Self-Service"%string →
     get_self_service_page d = Ok (click e d))
  ∧ (∀ d' : driver,
       get_self_service_page d = Ok d' →
       ∃ e : element, d' = click e d ∧ text e = "Self-Service"%string)
  ∧ (Forall (λ t, ∃ e', find_element_by_id t "tab" = Ok e'
                        ∧ text e' ≠ "Self-Service"%string)
       (find_elements_by_class_name tabs "taboff") →
     get_self_service_page d = Raise (UnexpectedTagNameException no_tab_msg)).
Proof.
  intros Htabs. split; [|split].
  - intros tag e pre post Htags Hpre Htag Htext.
    unfold get_self_service_page. rewrite Htabs. cbn. rewrite Htags.
    by rewrite (search_tabs_found pre post tag e).
  - intros d' Hd'. unfold get_self_service_page in Hd'.
    rewrite Htabs in Hd'. cbn in Hd'.
    destruct (search_tabs (find_elements_by_class_name tabs "taboff"))
      as [e|ex] eqn:Hsearch; [|done].
    cbn in Hd'. injection Hd' as <-.
    apply search_tabs_Ok in Hsearch as (_ & _ & _ & _ & _ & Htext).
    by exists e.
  - intros Hnone. unfold get_self_service_page. rewrite Htabs. cbn.
    by rewrite search_tabs_not_found.
Qed.

Lemma get_self_service_page_clicks_exact_match_witness :
  get_self_service_page (tabs_page "Self-Service")
  = Ok (click (leaf "a" (Some "tab"%string) [] "Self-Service")
              (tabs_page "Self-Service")).
Proof.
  apply (proj1 (get_self_service_page_clicks_exact_match
                  (tabs_page "Self-Service")
                  (Element "table" (Some "tabs_tda"%string) [] ""
                     [tab "tabon" "myNEU Central"; tab "taboff" "Community";
                      tab "taboff" "Self-Service"])
                  eq_refl)
           (tab "taboff" "Self-Service")
           (leaf "a" (Some "tab"%string) [] "Self-Service")
           [tab "taboff" "Community"] []).
  - reflexivity.
  - constructor; [|constructor].
    exists (leaf "a" (Some "tab"%string) [] "Community").
    split; [reflexivity | discriminate].
  - reflexivity.
  - reflexivity.
Defined.



(** ** The claims about the sections and the table scraper *)



(** C2 fails on the code: cells in even number are paired off into the
    mapping, A, 1, B, 2, C, 3 into A to 1, B to 2, C to 3; with an odd number
    of cells the scraper does not return a mapping with a placeholder, it
    stops with an attribute error, as it does on A, 1, B. *)
Theorem get_balance_data_odd_cells_raise :
  (∀ texts : list string,
     get_balance_data (balances_page texts)
     = if Nat.even (length texts)
       then Ok (dict_of_pairs (pairs_of (content_cell <$> texts)))
       else Raise AttributeError)
  ∧ get_balance_data (balances_page ["A"; "1"; "B"; "2"; "C"; "3"]%string)
    = Ok {[ "A"%string := "1"%string; "B"%string := "2"%string;
            "C"%string := "3"%string ]}
  ∧ get_balance_data (balances_page ["A"; "1"; "B"]%string)
    = Raise AttributeError.
Proof.
  split; [|split].
  - intros texts. rewrite get_balance_data_balances_page, pair_cells_parity.
    by rewrite length_cells.
  - vm_compute. reflexivity.
  - reflexivity.
Qed.

(** C9: away from the balances page [get_dining_dollars] fails its assertion
    with the message of the wrong page; on the balances page it returns what
    the scraped mapping holds under the meal plan label, and no result when
    the mapping has no such label. *)
Theorem get_dining_dollars_on_balance_page (d : driver) :
  (title d ≠ balance_page_title →
   get_dining_dollars d = Raise (AssertionError wrong_page_msg))
  ∧ (title d = balance_page_title →
     ∀ data : gmap string string,
       get_balance_data d = Ok data →
       get_dining_dollars d = Ok (data !! meal_plan)
       ∧ (∀ value, data !! meal_plan = Some value →
                   get_dining_dollars d = Ok (Some value))
       ∧ (data !! meal_plan = None → get_dining_dollars d = Ok None)).
Proof.
  unfold get_dining_dollars. split.
  - intros Hne. by rewrite bool_decide_eq_false_2.
  - intros Heq data Hdata. rewrite bool_decide_eq_true_2 by done.
    rewrite Hdata. cbn. split; [done|]. split; [by intros value ->|by intros ->].
Qed.

Lemma get_dining_dollars_on_balance_page_witness :
  get_dining_dollars (tabs_page "Self-Service")
  = Raise (AssertionError wrong_page_msg)
  ∧ get_dining_dollars (balances_page ["Spring 15 Meal Plan"; "42.00"]%string)
    = Ok (Some "42.00"%string)
  ∧ get_dining_dollars (balances_page ["Fall 14 Meal Plan"; "0.00"]%string)
    = Ok None.
Proof.
  split; [|split].
  - apply (proj1 (get_dining_dollars_on_balance_page (tabs_page "Self-Service"))).
    discriminate.
  - apply (proj2 (get_dining_dollars_on_balance_page
                    (balances_page ["Spring 15 Meal Plan"; "42.00"]%string))
             eq_refl {[ meal_plan := "42.00"%string ]}).
    + vm_compute. reflexivity.
    + reflexivity.
  - apply (proj2 (get_dining_dollars_on_balance_page
                    (balances_page ["Fall 14 Meal Plan"; "0.00"]%string))
             eq_refl {[ "Fall 14 Meal Plan"%string := "0.00"%string ]}).
    + vm_compute. reflexivity.
    + reflexivity.
Defined.

(** ** Further properties of the link corrector *)

(** X1: wrapping and correcting is a round trip: for a text that contains
    "http://" or "https://", whatever else it contains, the script invocation
    that wraps it between two quoting characters is corrected to the text. *)
Theorem correct_link_wrapped_round_trip (q1 q2 : ascii) (url : string) :
  has_url url = true →
  correct_link (wrapped_link q1 q2 url) = Ok url.
Proof.
  intros Hurl. unfold wrapped_link.
  assert (Hwraps : wraps (marker +:+ "(" +:+ String q1 url +:+ String q2 ")")
                         marker (String q1 url +:+ String q2 "") "").
  { split; [|by split]. do 2 f_equal. by rewrite app_assoc_str. }
  assert (Hmarker : PyStr.contains marker
            (marker +:+ "(" +:+ String q1 url +:+ String q2 ")") = true)
    by (by apply contains_app_l).
  assert (Hhas : has_url (marker +:+ "(" +:+ String q1 url +:+ String q2 ")") = true).
  { apply has_url_app_r, has_url_app_r.
    change (String q1 url) with (String q1 "" +:+ url).
    rewrite app_assoc_str. by apply has_url_app_r, has_url_app_l. }
  rewrite correct_link_slice by done.
  rewrite (find_open_paren _ _ _ _ Hwraps), (rfind_close_paren _ _ _ _ Hwraps).
  destruct Hwraps as (Heq & _ & _). rewrite Heq.
  f_equal.
  etrans; [apply (slice_between "(" ")" marker (String q1 url +:+ String q2 "") "")|].
  unfold trim_one. rewrite app_cons. cbn [PyStr.drop].
  apply drop_last_snoc.
Qed.

Lemma correct_link_wrapped_round_trip_witness :
  correct_link (wrapped_link "'" "'" "https://a.b/c?d=(e)'f")
  = Ok "https://a.b/c?d=(e)'f"%string.
Proof. apply correct_link_wrapped_round_trip. reflexivity. Defined.

(** X2: whatever [correct_link] returns occurs in the link it was given as
    one piece: the corrector only cuts, it adds and alters nothing. *)
Theorem correct_link_returns_substring (s r : string) :
  correct_link s = Ok r → is_substring r s.
Proof.
  intros Hr. destruct (PyStr.contains marker s) eqn:Hmarker.
  - destruct (has_url s) eqn:Hurl.
    + rewrite correct_link_slice in Hr by done. injection Hr as <-.
      apply slice_substring.
    + by rewrite correct_link_no_url in Hr.
  - rewrite correct_link_plain in Hr by done. injection Hr as <-.
    exists ""%string, ""%string. by rewrite app_empty_r.
Qed.

Lemma correct_link_returns_substring_witness :
  is_substring "http://example.com/page"
               "javascript:OpenWinNEU('http://example.com/page')".
Proof.
  apply (correct_link_returns_substring
           "javascript:OpenWinNEU('http://example.com/page')").
  reflexivity.
Defined.

(** X3: a link with the script marker and a URL but without any parenthesis
    is not refused: both searches answer -1, and the link comes back without
    its first and without its last two characters. *)
Theorem correct_link_without_parentheses (s : string) :
  PyStr.contains marker s = true →
  has_url s = true →
  PyStr.contains "(" s = false →
  PyStr.contains ")" s = false →
  correct_link s = Ok (drop_last (drop_last (PyStr.drop 1 s))).
Proof.
  intros Hmarker Hurl Hopen Hclose.
  rewrite correct_link_slice by done.
  rewrite find_none, rfind_none by done. f_equal.
  apply slice_1_minus_2.
  apply length_contains in Hmarker. cbn in Hmarker. lia.
Qed.

Lemma correct_link_without_parentheses_witness :
  correct_link "javascript:OpenWinNEU http://abc"
  = Ok "avascript:OpenWinNEU http://a"%string.
Proof.
  apply (correct_link_without_parentheses "javascript:OpenWinNEU http://abc");
    reflexivity.
Defined.

(** ** Further properties of the grouper *)

(** X4: every group that [grouper] yields has exactly [n] slots, the last
    one too, whatever the number of items. *)
Theorem grouper_groups_have_n_slots {A : Type} (iterable : list A) (n : nat) :
  Forall (λ group, length group = n) (grouper iterable n).
Proof. apply grouper_from_lengths. done. Qed.

(** X5: for a positive group size the groups, laid end to end, are the
    items in their order followed by fewer than [n] fill values: no item is
    lost, repeated or moved, the padding stands at the very end, and taking
    the fill values away gives the items back. *)
Theorem grouper_keeps_items {A : Type} (iterable : list A) (n : nat) :
  (1 ≤ n)%nat →
  (∃ pad : nat,
     (pad < n)%nat
     ∧ concat (grouper iterable n) = (Some <$> iterable) ++ replicate pad None)
  ∧ omap id (concat (grouper iterable n)) = iterable.
Proof.
  intros Hn.
  destruct (grouper_from_concat n iterable n [] Hn eq_refl) as (pad & Hpad & Heq).
  fold (grouper iterable n) in Heq. rewrite reverse_nil, app_nil_l in Heq.
  split; [by exists pad|].
  rewrite Heq, omap_app, omap_id_some, omap_id_none. apply app_nil_r.
Qed.

Lemma grouper_keeps_items_witness :
  (∃ pad : nat,
     (pad < 3)%nat
     ∧ concat (grouper [1; 2; 3; 4; 5; 6; 7]%nat 3)
       = (Some <$> [1; 2; 3; 4; 5; 6; 7]%nat) ++ replicate pad None)
  ∧ omap id (concat (grouper [1; 2; 3; 4; 5; 6; 7]%nat 3))
    = [1; 2; 3; 4; 5; 6; 7]%nat.
Proof. apply grouper_keeps_items. lia. Defined.

(** X27: for a positive group size the number of groups is the number of
    items divided by the size, rounded up: no group is empty, and there is
    no group at all for no item. *)
Theorem grouper_number_of_groups {A : Type} (iterable : list A) (n : nat) :
  (1 ≤ n)%nat →
  length (grouper iterable n) = ((length iterable + n - 1) / n)%nat.
Proof.
  intros Hn.
  pose proof (length_concat_uniform n (grouper iterable n)
                (grouper_from_lengths n iterable n [] eq_refl)) as Hlen.
  destruct (grouper_from_concat n iterable n [] Hn eq_refl) as (pad & Hpad & Heq).
  fold (grouper iterable n) in Heq. rewrite reverse_nil, app_nil_l in Heq.
  rewrite Heq, List.length_app, length_fmap, length_replicate in Hlen.
  apply (Nat.div_unique _ _ _ (n - 1 - pad)); [lia|].
  rewrite (Nat.mul_comm n). lia.
Qed.

Lemma grouper_number_of_groups_witness :
  length (grouper [1; 2; 3; 4; 5; 6; 7]%nat 3) = ((7 + 3 - 1) / 3)%nat.
Proof. apply (grouper_number_of_groups [1; 2; 3; 4; 5; 6; 7]%nat 3). lia. Defined.

(** ** Further properties of the credential loader *)

(** X6: whatever the file holds, a user name and a password that the loader
    returns contain no line feed and no carriage return, and neither begin
    nor end with white space. *)
Theorem get_login_credentials_clean
    (fs : gmap string fs_node) (path username password : string) :
  get_login_credentials fs path = Ok (username, password) →
  clean_field username ∧ clean_field password.
Proof.
  unfold get_login_credentials.
  destruct (fs !! path) as [[content| |]|]; try done.
  pose proof (lines_keepends_shape (PyStr.universal_newlines content)
                (universal_newlines_free_of_cr content)) as Hshape.
  fold (readlines content) in Hshape.
  destruct (readlines content) as [|l1 [|l2 [|l3 ls]]]; try done.
  intros [= <- <-].
  apply Forall_cons in Hshape as [H1 Hshape].
  apply Forall_cons in Hshape as [H2 _].
  split; by apply strip_line_clean.
Qed.

Lemma get_login_credentials_clean_witness :
  clean_field "bob" ∧ clean_field "hunter2".
Proof.
  apply (get_login_credentials_clean example_fs "creds.txt"). reflexivity.
Defined.

(** X7: the loader unpacks exactly two lines.  On a file of complete lines
    whose number is not two (an empty file, one line, two lines followed by
    a blank line, ...) it stops with the error of the failed unpacking. *)
Theorem get_login_credentials_line_count
    (fs : gmap string fs_node) (path : string) (lines : list string) :
  fs !! path = Some (File (file_of_lines lines)) →
  Forall (λ l, no_linebreak l = true) lines →
  length lines ≠ 2%nat →
  get_login_credentials fs path = Raise ValueError.
Proof.
  intros Hfile Hlines Hlen. unfold get_login_credentials. rewrite Hfile.
  rewrite readlines_file_of_lines by done.
  by destruct lines as [|l1 [|l2 [|l3 lines]]].
Qed.

Lemma get_login_credentials_line_count_witness :
  get_login_credentials
    {[ "creds.txt"%string := File (file_of_lines ["alice"; "password1"; ""]%string) ]}
    "creds.txt"
  = Raise ValueError.
Proof.
  apply (get_login_credentials_line_count _ _ ["alice"; "password1"; ""]%string).
  - reflexivity.
  - repeat constructor.
  - discriminate.
Defined.

(** ** Further properties of the page navigator *)



(** X9: the case of the name does not matter to [find_link]: two names that
    are equal up to case get the same answer. *)
Theorem find_link_name_case (d : driver) (name name' : string) :
  caseless_eq name name' → find_link d name = find_link d name'.
Proof. intros Heq%caseless_eq_lower. unfold find_link. by rewrite Heq. Qed.

Lemma find_link_name_case_witness :
  find_link links_page "Help" = find_link links_page "hELP".
Proof.
  apply find_link_name_case. apply caseless_eq_lower. reflexivity.
Defined.

(** X10: when [get_self_service_page] returns, it has made exactly one
    click and changed nothing else; the element clicked has the id "tab",
    reads "Self-Service", and stands inside a tab that is not the current
    one, inside the tab container. *)
Theorem get_self_service_page_sound (d d' : driver) :
  get_self_service_page d = Ok d' →
  ∃ e tabs tag : element,
    d' = click e d
    ∧ title d' = title d ∧ document d' = document d
    ∧ clicked d' = clicked d ++ [e]
    ∧ attr_id e = Some "tab"%string
    ∧ text e = "Self-Service"%string
    ∧ find_element_by_id d "tabs_tda" = Ok tabs
    ∧ tag ∈ find_elements_by_class_name tabs "taboff"
    ∧ e ∈ descendants tag.
Proof.
  unfold get_self_service_page.
  destruct (find_element_by_id d "tabs_tda") as [tabs|ex] eqn:Htabs; [|done]. cbn.
  destruct (search_tabs (find_elements_by_class_name tabs "taboff"))
    as [e|ex] eqn:Hsearch; [|done]. cbn.
  intros [= <-].
  apply search_tabs_Ok in Hsearch as (pre & post & tag & Htags & Htag & Htext).
  apply find_element_by_id_inside in Htag as [Hid Hin].
  exists e, tabs, tag. repeat split; try done.
  rewrite Htags. apply elem_of_app. right. by left.
Qed.

Lemma get_self_service_page_sound_witness :
  ∃ e tabs tag : element,
    click (leaf "a" (Some "tab"%string) [] "Self-Service") (tabs_page "Self-Service")
    = click e (tabs_page "Self-Service")
    ∧ title (click (leaf "a" (Some "tab"%string) [] "Self-Service")
                   (tabs_page "Self-Service"))
      = title (tabs_page "Self-Service")
    ∧ document (click (leaf "a" (Some "tab"%string) [] "Self-Service")
                      (tabs_page "Self-Service"))
      = document (tabs_page "Self-Service")
    ∧ clicked (click (leaf "a" (Some "tab"%string) [] "Self-Service")
                     (tabs_page "Self-Service"))
      = clicked (tabs_page "Self-Service") ++ [e]
    ∧ attr_id e = Some "tab"%string
    ∧ text e = "Self-Service"%string
    ∧ find_element_by_id (tabs_page "Self-Service") "tabs_tda" = Ok tabs
    ∧ tag ∈ find_elements_by_class_name tabs "taboff"
    ∧ e ∈ descendants tag.
Proof.
  apply (get_self_service_page_sound (tabs_page "Self-Service")). reflexivity.
Defined.

(** X11: a non-active tab without an element of id "tab" inside, met before
    a tab that reads "Self-Service", stops the navigator with the error of
    the missing element, whatever tabs come after. *)
Theorem get_self_service_page_failures
    (d : driver) (tabs tag : element) (pre post : list element) :
  find_element_by_id d "tabs_tda" = Ok tabs →
  find_elements_by_class_name tabs "taboff" = pre ++ tag :: post →
  Forall (λ t, ∃ e', find_element_by_id t "tab" = Ok e'
                     ∧ text e' ≠ "Self-Service"%string) pre →
  find_elements_by_id tag "tab" = [] →
  get_self_service_page d = Raise NoSuchElementException.
Proof.
  intros Htabs Htags Hpre Htag. unfold get_self_service_page.
  rewrite Htabs. cbn. rewrite Htags.
  by rewrite search_tabs_broken.
Qed.

Lemma get_self_service_page_failures_witness :
  get_self_service_page broken_tabs_page = Raise NoSuchElementException.
Proof.
  apply (get_self_service_page_failures broken_tabs_page
           (Element "table" (Some "tabs_tda"%string) [] ""
              [tab "taboff" "Community";
               leaf "td" None ["taboff"%string] "Self-Service";
               tab "taboff" "Self-Service"])
           (leaf "td" None ["taboff"%string] "Self-Service")
           [tab "taboff" "Community"] [tab "taboff" "Self-Service"]).
  - reflexivity.
  - reflexivity.
  - constructor; [|constructor].
    exists (leaf "a" (Some "tab"%string) [] "Community").
    split; [reflexivity | discriminate].
  - reflexivity.
Defined.

(** ** Further properties of the table scraper *)

(** X12: the scraper fails in one way only: it stops with the attribute
    error exactly when one of the tables it reads (a table inside a quoted
    block that has an element of class "Title") has an odd number of content
    cells.  One such table anywhere on the page loses the whole mapping. *)
Theorem get_balance_data_raises_iff_odd_table (d : driver) (ex : exn) :
  get_balance_data d = Raise ex
  ↔ ex = AttributeError ∧ Exists (λ t, even_cells t = false) (scanned_tables d).
Proof.
  split.
  - intros Hraise. destruct (tables_dec (scanned_tables d)) as [Heven | Hodd].
    + by rewrite get_balance_data_even in Hraise.
    + rewrite get_balance_data_odd in Hraise by done.
      by injection Hraise as <-.
  - intros [-> Hodd]. by apply get_balance_data_odd.
Qed.

Lemma get_balance_data_raises_iff_odd_table_witness :
  get_balance_data (balances_page ["A"; "1"; "B"; "2"; "C"]%string)
  = Raise AttributeError.
Proof.
  apply (proj2 (get_balance_data_raises_iff_odd_table
                  (balances_page ["A"; "1"; "B"; "2"; "C"]%string) AttributeError)).
  split; [reflexivity|]. constructor. reflexivity.
Defined.

(** X13: a mapping that the scraper returns holds the label and value texts
    of all the tables it reads, taken in document order: under a label that
    occurs several times, in one table or in several, stands the value of
    its last occurrence, and a label that occurs in no table is absent. *)
Theorem get_balance_data_last_value_wins (d : driver) (data : gmap string string) :
  get_balance_data d = Ok data →
  data = dict_of_pairs (pairs_in (scanned_tables d))
  ∧ ∀ label : string,
      data !! label = last_value label (pairs_in (scanned_tables d)).
Proof.
  intros Hdata. destruct (tables_dec (scanned_tables d)) as [Heven | Hodd].
  - rewrite get_balance_data_even in Hdata by done. injection Hdata as <-.
    split; [done|]. intros label. apply dict_of_pairs_lookup.
  - by rewrite get_balance_data_odd in Hdata.
Qed.

Lemma get_balance_data_last_value_wins_witness :
  ({[ "A"%string := "2"%string; "B"%string := "3"%string ]} : gmap string string)
  = dict_of_pairs
      (pairs_in (scanned_tables (balances_page ["A"; "1"; "B"; "3"; "A"; "2"]%string)))
  ∧ ∀ label : string,
      ({[ "A"%string := "2"%string; "B"%string := "3"%string ]} : gmap string string)
        !! label
      = last_value label
          (pairs_in (scanned_tables (balances_page ["A"; "1"; "B"; "3"; "A"; "2"]%string))).
Proof.
  apply (get_balance_data_last_value_wins
           (balances_page ["A"; "1"; "B"; "3"; "A"; "2"]%string)).
  vm_compute. reflexivity.
Defined.

(** X14: on the balances page [get_dining_dollars] is decided by the tables
    that the scraper reads: with an even number of cells in each of them it
    returns the value that stands last under the meal plan label, or no
    result when the label stands nowhere (so also when there is no titled
    block or no table at all); with an odd number of cells in one of them it
    stops with the attribute error. *)
Theorem get_dining_dollars_from_tables (d : driver) :
  title d = balance_page_title →
  (Forall (λ t, even_cells t = true) (scanned_tables d) →
   get_dining_dollars d = Ok (last_value meal_plan (pairs_in (scanned_tables d))))
  ∧ (Exists (λ t, even_cells t = false) (scanned_tables d) →
     get_dining_dollars d = Raise AttributeError)
  ∧ (scanned_tables d = [] → get_dining_dollars d = Ok None).
Proof.
  intros Htitle. unfold get_dining_dollars.
  rewrite bool_decide_eq_true_2 by done.
  assert (Heven : Forall (λ t, even_cells t = true) (scanned_tables d) →
    get_balance_data d ≫= (λ data : gmap string string, Ok (data !! meal_plan))
    = Ok (last_value meal_plan (pairs_in (scanned_tables d)))).
  { intros Heven. rewrite get_balance_data_even by done. cbn.
    by rewrite dict_of_pairs_lookup. }
  split; [exact Heven|]. split.
  - intros Hodd. by rewrite get_balance_data_odd.
  - intros Hnone. rewrite Heven; rewrite Hnone; [done|constructor].
Qed.

Lemma get_dining_dollars_from_tables_witness :
  get_dining_dollars
    (balances_page ["Spring 15 Meal Plan"; "42.00"; "Spring 15 Meal Plan"; "17.50"]%string)
  = Ok (Some "17.50"%string)
  ∧ get_dining_dollars (page balance_page_title []) = Ok None.
Proof.
  split.
  - apply (proj1 (get_dining_dollars_from_tables
             (balances_page ["Spring 15 Meal Plan"; "42.00";
                             "Spring 15 Meal Plan"; "17.50"]%string)
             eq_refl)).
    repeat constructor.
  - apply (proj2 (proj2 (get_dining_dollars_from_tables
             (page balance_page_title []) eq_refl))).
    reflexivity.
Defined.

(** ** Properties of the section lookup *)







(** X18: the case of the name does not matter to the section lookup: two
    names that are equal up to case get the same answer, the same error
    message included. *)
Theorem get_self_service_section_name_case (d : driver) (section section' : string) :
  caseless_eq section section' →
  get_self_service_section d section = get_self_service_section d section'.
Proof.
  intros Heq%caseless_eq_lower. unfold get_self_service_section. by rewrite Heq.
Qed.

Lemma get_self_service_section_name_case_witness :
  get_self_service_section portal_page "Housing"
  = get_self_service_section portal_page "hOUSING".
Proof.
  apply get_self_service_section_name_case. apply caseless_eq_lower. reflexivity.
Defined.





(** ** Properties of the login *)

(** X20: whatever the browser answers and however the login ends, [login]
    sends nothing but the launch, the request of the login page, the user
    name to an element with the id "user", the password to an element with
    the id "pass", and a click on an [input] element: the password goes
    nowhere else, and no other address is requested. *)
Theorem login_sends_only (b : browser) (username password : string)
    (h : list command) (r : outcome driver) :
  login b username password [] = (h, r) →
  Forall (login_command username password) h.
Proof.
  intros H. unfold login in H.
  script_step H; [|injection H as <- _; commands_ok].
  script_step H; [|injection H as <- _; commands_ok].
  script_step H; [|injection H as <- _; commands_ok].
  script_step H; [|injection H as <- _; commands_ok].
  script_step H; [|injection H as <- _; commands_ok].
  script_step H; [|injection H as <- _; commands_ok].
  script_step H; [|injection H as <- _; commands_ok].
  script_step H; [|injection H as <- _; commands_ok].
  script_step H; injection H as <- _; commands_ok.
Qed.

Lemma login_sends_only_witness :
  Forall (login_command "alice" "password1") (login portal "alice" "password1" []).1.
Proof.
  apply (login_sends_only portal "alice" "password1" _
           (login portal "alice" "password1" []).2).
  reflexivity.
Defined.

(** X21: a login that returns has sent exactly five commands: the launch,
    the request of the login page, the user name to the first element with
    the id "user" and the password to the first element with the id "pass"
    of the page that came, in the order of the document, and one click, on
    the first [input] element inside the first element of class "buttons"
    of the page shown after the typing.  The driver that it returns stands
    for the page that the browser shows after the click. *)
Theorem login_returns (b : browser) (username password : string)
    (h : list command) (d : driver) :
  login b username password [] = (h, Returned d) →
  ∃ (user_form pass_form button_class button : element)
    (first_page typed_page : string * element),
    h = [Launch; Get LOGIN_PAGE; SendKeys user_form username;
         SendKeys pass_form password; Click button]
    ∧ respond b [Launch; Get LOGIN_PAGE] = Ok first_page
    ∧ first_with (λ e, attr_id e = Some "user"%string)
                 (first_page.2 :: descendants first_page.2) user_form
    ∧ first_with (λ e, attr_id e = Some "pass"%string)
                 (first_page.2 :: descendants first_page.2) pass_form
    ∧ respond b [Launch; Get LOGIN_PAGE; SendKeys user_form username;
                 SendKeys pass_form password] = Ok typed_page
    ∧ first_with (λ e, "buttons"%string ∈ class_names e)
                 (typed_page.2 :: descendants typed_page.2) button_class
    ∧ first_with (λ e, tag_name e = "input"%string)
                 (descendants button_class) button
    ∧ respond b h = Ok (title d, document d)
    ∧ clicked d = [button].
Proof. apply login_Returned. Qed.

Lemma login_returns_witness :
  ∃ (user_form pass_form button_class button : element)
    (first_page typed_page : string * element),
    (login portal "alice" "password1" []).1
    = [Launch; Get LOGIN_PAGE; SendKeys user_form "alice";
       SendKeys pass_form "password1"; Click button]
    ∧ respond portal [Launch; Get LOGIN_PAGE] = Ok first_page
    ∧ first_with (λ e, attr_id e = Some "user"%string)
                 (first_page.2 :: descendants first_page.2) user_form
    ∧ first_with (λ e, attr_id e = Some "pass"%string)
                 (first_page.2 :: descendants first_page.2) pass_form
    ∧ respond portal [Launch; Get LOGIN_PAGE; SendKeys user_form "alice";
                      SendKeys pass_form "password1"] = Ok typed_page
    ∧ first_with (λ e, "buttons"%string ∈ class_names e)
                 (typed_page.2 :: descendants typed_page.2) button_class
    ∧ first_with (λ e, tag_name e = "input"%string)
                 (descendants button_class) button
    ∧ respond portal (login portal "alice" "password1" []).1
      = Ok (title logged_in, document logged_in)
    ∧ clicked logged_in = [button].
Proof.
  apply (login_returns portal "alice" "password1" _ logged_in). reflexivity.
Defined.

(** X22: nothing is typed unless both forms are there: when the login page
    that the browser shows has no element with the id "user", or none with
    the id "pass", the login stops with the error of the missing element
    after the request of the page, and neither the user name nor the password
    has been sent. *)
Theorem login_types_nothing_without_forms
    (b : browser) (username password : string)
    (blank first_page : string * element) :
  respond b [Launch] = Ok blank →
  respond b [Launch; Get LOGIN_PAGE] = Ok first_page →
  find_elements_by_id (Driver first_page.1 first_page.2 []) "user" = []
  ∨ find_elements_by_id (Driver first_page.1 first_page.2 []) "pass" = [] →
  login b username password []
  = ([Launch; Get LOGIN_PAGE], Raised NoSuchElementException).
Proof.
  intros Hlaunch Hget Hforms. destruct blank as [t0 doc0], first_page as [t doc].
  unfold login. rewrite run_bind, run_perform. cbn [app]. rewrite Hlaunch.
  rewrite run_bind, run_perform. cbn [app]. rewrite Hget.
  rewrite run_bind, run_lift. unfold find_element_by_id.
  change (clicks [Launch; Get LOGIN_PAGE]) with (@nil element).
  cbn [fst snd] in Hforms.
  destruct (find_elements_by_id (Driver t doc []) "user") as [|user_form found].
  - done.
  - cbn [first_element]. rewrite run_bind, run_lift.
    destruct Hforms as [Hforms | Hforms]; [done|]. by rewrite Hforms.
Qed.

Lemma login_types_nothing_without_forms_witness :
  login blank_portal "alice" "password1" []
  = ([Launch; Get LOGIN_PAGE], Raised NoSuchElementException).
Proof.
  apply (login_types_nothing_without_forms blank_portal "alice" "password1"
           (""%string, leaf "html" None [] "") (""%string, leaf "html" None [] "")).
  - reflexivity.
  - reflexivity.
  - left. reflexivity.
Defined.

(** X23: the button is looked for after the typing only: when the page
    shown after the password was typed has no element of class "buttons",
    the login stops with the error of the missing element, the user name and
    the password have been typed, and nothing has been clicked. *)
Theorem login_types_before_button
    (b : browser) (username password : string)
    (blank first_page mid_page typed_page : string * element)
    (user_form pass_form : element) :
  respond b [Launch] = Ok blank →
  respond b [Launch; Get LOGIN_PAGE] = Ok first_page →
  find_element_by_id (Driver first_page.1 first_page.2 []) "user" = Ok user_form →
  find_element_by_id (Driver first_page.1 first_page.2 []) "pass" = Ok pass_form →
  respond b [Launch; Get LOGIN_PAGE; SendKeys user_form username] = Ok mid_page →
  respond b [Launch; Get LOGIN_PAGE; SendKeys user_form username;
             SendKeys pass_form password] = Ok typed_page →
  find_elements_by_class_name (Driver typed_page.1 typed_page.2 []) "buttons" = [] →
  login b username password []
  = ([Launch; Get LOGIN_PAGE; SendKeys user_form username;
      SendKeys pass_form password],
     Raised NoSuchElementException).
Proof.
  intros Hlaunch Hget Huser Hpass Hmid Htyped Hbutton.
  destruct blank as [t0 doc0], first_page as [t1 doc1],
    mid_page as [t2 doc2], typed_page as [t3 doc3].
  cbn [fst snd] in *.
  unfold login. rewrite run_bind, run_perform. cbn [app]. rewrite Hlaunch.
  rewrite run_bind, run_perform. cbn [app]. rewrite Hget.
  change (clicks [Launch; Get LOGIN_PAGE]) with (@nil element).
  rewrite run_bind, run_lift, Huser. rewrite run_bind, run_lift, Hpass.
  rewrite run_bind, run_perform. cbn [app]. rewrite Hmid.
  rewrite run_bind, run_perform. cbn [app]. rewrite Htyped.
  change (clicks _) with (@nil element).
  rewrite run_bind, run_lift. unfold find_element_by_class_name.
  by rewrite Hbutton.
Qed.

Lemma login_types_before_button_witness :
  login bare_portal "alice" "password1" []
  = ([Launch; Get LOGIN_PAGE;
      SendKeys (leaf "input" (Some "user"%string) [] "") "alice";
      SendKeys (leaf "input" (Some "pass"%string) [] "") "password1"],
     Raised NoSuchElementException).
Proof.
  apply (login_types_before_button bare_portal "alice" "password1"
           bare_login_page bare_login_page bare_login_page bare_login_page);
    reflexivity.
Defined.

(** ** Properties of the script as a whole *)

(** X24: the browser is launched exactly when the credentials could be
    loaded: when the loader fails (no file, a directory, not two lines) the
    script ends with that error and has sent nothing; when it returns, the
    first thing the script sends is the launch. *)
Theorem main_needs_credentials (b : browser) (fs : gmap string fs_node) :
  (∀ e : exn,
     get_login_credentials fs "creds.txt" = Raise e →
     main b fs [] = ([], Raised e))
  ∧ (∀ credentials : string * string,
       get_login_credentials fs "creds.txt" = Ok credentials →
       ∃ h : list command, (main b fs []).1 = Launch :: h).
Proof.
  split.
  - intros e Hcreds. unfold main. by rewrite run_bind, run_lift, Hcreds.
  - intros credentials Hcreds. unfold main.
    rewrite run_bind, run_lift, Hcreds, run_bind.
    destruct (login b credentials.1 credentials.2 []) as [h1 r1] eqn:Hlogin.
    apply login_starts_with_launch in Hlogin as [k1 ->].
    destruct r1 as [d1|e|]; [|by exists k1..].
    match goal with
    | |- ∃ h, (?rest ?hist).1 = _ => destruct (rest hist) as [h2 r2] eqn:Hrest
    end.
    apply keeps_history_after_login in Hrest as [k2 ->].
    by exists (k1 ++ k2).
Qed.

Lemma main_needs_credentials_witness :
  main portal ∅ [] = ([], Raised (AssertionError "creds.txt does not exist!"))
  ∧ ∃ h : list command, (main portal two_line_fs []).1 = Launch :: h.
Proof.
  split.
  - apply (proj1 (main_needs_credentials portal ∅)). reflexivity.
  - apply (proj2 (main_needs_credentials portal two_line_fs)
             ("alice"%string, "password1"%string)).
    reflexivity.
Defined.

(** X25: what the script prints is the meal plan balance of the page behind
    the link.  A run that ends well has loaded the credentials, logged in
    with them, clicked a tab that reads "Self-Service", found on the page
    that came a hyperlink named "husky card account balances" up to case,
    requested the corrected [href] of this hyperlink, and printed the result
    of [get_dining_dollars] on the page that came, "None" when there is
    none; the click and the request are all it has sent after the login. *)
Theorem main_prints (b : browser) (fs : gmap string fs_node)
    (h : list command) (out : string) :
  main b fs [] = (h, Returned out) →
  ∃ (username password link_url url : string) (h_login : list command)
    (d_login d_tab d_final : driver) (tab link : element) (value : option string),
    get_login_credentials fs "creds.txt" = Ok (username, password)
    ∧ login b username password [] = (h_login, Returned d_login)
    ∧ text tab = "Self-Service"%string
    ∧ respond b (h_login ++ [Click tab]) = Ok (title d_tab, document d_tab)
    ∧ tag_name link = "a"%string
    ∧ link ∈ document d_tab :: descendants (document d_tab)
    ∧ caseless_eq (text link) balances_link_name
    ∧ href b link = Some link_url
    ∧ correct_link link_url = Ok url
    ∧ h = h_login ++ [Click tab; Get url]
    ∧ respond b h = Ok (title d_final, document d_final)
    ∧ get_dining_dollars d_final = Ok value
    ∧ out = printed value.
Proof.
  intros H. unfold main in H.
  script_step H; [|done]. destruct a as [username password]. cbn [fst snd] in H.
  rewrite run_bind in H.
  destruct (login b username password []) as [h1 [d1|e|]] eqn:Hlogin; [|done..].
  rewrite run_bind in H.
  destruct (enter_self_service b d1 h1) as [h2 [d2|e|]] eqn:Henter; [|done..].
  apply enter_self_service_Returned in Henter as (tab & _ & Htab & -> & Hshown).
  script_step H; [|done]. destruct a as [link|]; [|done].
  apply find_link_Some in Hquery0 as (Htag & Hin & Hname).
  destruct (href b link) as [link_url|] eqn:Hhref; [|done].
  script_step H; [|done]. rename a into url.
  script_step H; [|done].
  script_step H; [|done]. rename a into value.
  injection H as <- <-.
  eexists username, password, link_url, url, h1, d1, d2, (Driver _ _ _), tab, link, value.
  repeat split; try done; by rewrite <- (assoc_L (++)).
Qed.

Lemma main_prints_witness :
  ∃ (username password link_url url : string) (h_login : list command)
    (d_login d_tab d_final : driver) (tab link : element) (value : option string),
    get_login_credentials two_line_fs "creds.txt" = Ok (username, password)
    ∧ login portal username password [] = (h_login, Returned d_login)
    ∧ text tab = "Self-Service"%string
    ∧ respond portal (h_login ++ [Click tab]) = Ok (title d_tab, document d_tab)
    ∧ tag_name link = "a"%string
    ∧ link ∈ document d_tab :: descendants (document d_tab)
    ∧ caseless_eq (text link) balances_link_name
    ∧ href portal link = Some link_url
    ∧ correct_link link_url = Ok url
    ∧ (main portal two_line_fs []).1 = h_login ++ [Click tab; Get url]
    ∧ respond portal (main portal two_line_fs []).1
      = Ok (title d_final, document d_final)
    ∧ get_dining_dollars d_final = Ok value
    ∧ printed (Some "42.00"%string) = printed value.
Proof.
  apply (main_prints portal two_line_fs). reflexivity.
Defined.

(** X26: after the navigation the script takes the link for granted.  When
    the page that follows the click on the tab has no hyperlink with the
    name, up to case, the script stops with the attribute error of a lookup
    on [None]; when the first such hyperlink has no [href], it stops with a
    type error; in both cases nothing is sent after the click. *)
Theorem main_needs_link (b : browser) (fs : gmap string fs_node)
    (username password : string) (h_login h_tab : list command)
    (d_login d_tab : driver) :
  get_login_credentials fs "creds.txt" = Ok (username, password) →
  login b username password [] = (h_login, Returned d_login) →
  enter_self_service b d_login h_login = (h_tab, Returned d_tab) →
  (Forall (λ l, ¬ caseless_eq (text l) balances_link_name)
          (find_elements_by_tag_name d_tab "a") →
   main b fs [] = (h_tab, Raised AttributeError))
  ∧ (∀ link : element,
       find_link d_tab balances_link_name = Ok (Some link) →
       href b link = None →
       main b fs [] = (h_tab, RaisedTypeError)).
Proof.
  intros Hcreds Hlogin Henter.
  assert (Hmain : ∀ found : option element,
    find_link d_tab balances_link_name = Ok found →
    main b fs []
    = match found with
      | None => (h_tab, Raised AttributeError)
      | Some link =>
          match href b link with
          | None => (h_tab, RaisedTypeError)
          | Some link_url =>
              (url ← lift (correct_link link_url);
               d ← perform b (Get url);
               value ← lift (get_dining_dollars d);
               mret (printed value)) h_tab
          end
      end).
  { intros found Hfound. unfold main.
    rewrite run_bind, run_lift, Hcreds. cbn [fst snd].
    rewrite run_bind, Hlogin, run_bind, Henter, run_bind, run_lift, Hfound.
    destruct found as [link|]; [|done]. by destruct (href b link). }
  split.
  - intros Hnone. rewrite (Hmain None); [done|].
    unfold find_link. f_equal. apply first_link_none.
    eapply Forall_impl; [apply Hnone|]. intros l Hl Heq. apply Hl.
    by apply caseless_eq_lower.
  - intros link Hlink Hhref. rewrite (Hmain (Some link) Hlink). by rewrite Hhref.
Qed.

Lemma main_needs_link_witness :
  main (Browser portal_respond (λ _, None)) two_line_fs []
  = ((login portal "alice" "password1" []).1
       ++ [Click (leaf "a" (Some "tab"%string) [] "Self-Service")],
     RaisedTypeError).
Proof.
  apply (proj2 (main_needs_link (Browser portal_respond (λ _, None)) two_line_fs
                  "alice" "password1"
                  (login portal "alice" "password1" []).1
                  ((login portal "alice" "password1" []).1
                     ++ [Click (leaf "a" (Some "tab"%string) [] "Self-Service")])
                  logged_in
                  (Driver self_service_page.1 self_service_page.2
                     [leaf "input" None [] "Login";
                      leaf "a" (Some "tab"%string) [] "Self-Service"])
                  eq_refl eq_refl eq_refl)
           balances_link).
  - reflexivity.
  - reflexivity.
Defined.
